(** * ydls: metadata catalog, format negotiation and feed synthesis

    A shallow embedding of the Go sources

      - package [youtubedl]  (Info, Format, normalizeCodecName, codecFromExt,
        parseInfo, NewFromURL, NewFromPath),
      - package [ydls], file rss.go  (RSSFromYDLSInfo),
      - package [ydls], file ydls_test.go  (the catalog of TestFindYDLFormat),

    together with models of the pieces of the Go standard library they call
    (strings, path, bufio.Scanner, time.Parse / Time.Format).

    Go strings are byte sequences: they are [string] here (a list of [ascii],
    one per byte).  Go []byte values are [list byte]. *)

From Stdlib Require Import String Ascii List ZArith NArith Bool Lia Strings.Byte.
From Stdlib Require Import Floats.PrimFloat.
From Stdlib Require Floats.SpecFloat Floats.FloatOps Floats.FloatAxioms.
Import ListNotations.
Open Scope string_scope.

Set Implicit Arguments.

(** ** Results of fallible Go code *)

(** A Go [error] value.  [Error] is the package's own [youtubedl.Error]
    string type, [Errorf] a value made by [fmt.Errorf], [SysError] an error
    coming from the operating system or from a library (os, exec, json). *)
Inductive error : Type :=
| Error (msg : string)
| Errorf (msg : string)
| SysError (msg : string).

(** What a call produces: a value, the [err] of a [(nil, err)] return, or a
    run-time panic (nil pointer dereference). *)
Inductive result (A : Type) : Type :=
| Ok (a : A)
| Err (e : error)
| Panic.
Arguments Ok {A} a.
Arguments Err {A} e.
Arguments Panic {A}.

Definition bind {A B : Type} (r : result A) (k : A -> result B) : result B :=
  match r with
  | Ok a => k a
  | Err e => Err e
  | Panic => Panic
  end.

Notation "x <- r ;; k" := (bind r (fun x => k))
  (at level 61, r at next level, right associativity).

(** ** Package strings *)

Module strings.

(** utf8.RuneSelf = 0x80: bytes below it are single-byte runes. *)
Definition RuneSelf : N := 128.

Definition isASCIIByte (c : ascii) : bool := (N_of_ascii c <? RuneSelf)%N.

Fixpoint isASCII (s : string) : bool :=
  match s with
  | EmptyString => true
  | String c s' => isASCIIByte c && isASCII s'
  end.

(** The byte loop of [strings.ToLower]: ['A'..'Z'] get ['a' - 'A'] added. *)
Definition lowerByte (c : ascii) : ascii :=
  if (("A" <=? c) && (c <=? "Z"))%char
  then ascii_of_N (N_of_ascii c + 32)
  else c.

Fixpoint lowerBytes (s : string) : string :=
  match s with
  | EmptyString => EmptyString
  | String c s' => String (lowerByte c) (lowerBytes s')
  end.

(** The Unicode case tables are not part of this development: what
    [strings.ToLower] does to a string holding a byte >= 0x80
    ([strings.Map] with [unicode.ToLower]) is a parameter. *)
Class Unicode : Type := { mapToLower : string -> string }.

(** [strings.ToLower]: an all-ASCII string is lower-cased byte by byte, any
    other string goes through the Unicode mapping. *)
Definition ToLower {U : Unicode} (s : string) : string :=
  if isASCII s then lowerBytes s else mapToLower s.

Fixpoint inCutset (c : ascii) (cutset : string) : bool :=
  match cutset with
  | EmptyString => false
  | String d cutset' => (c =? d)%char || inCutset c cutset'
  end.

Fixpoint TrimLeft (s cutset : string) : string :=
  match s with
  | EmptyString => EmptyString
  | String c s' => if inCutset c cutset then TrimLeft s' cutset else s
  end.

Fixpoint TrimRight (s cutset : string) : string :=
  match s with
  | EmptyString => EmptyString
  | String c s' =>
      match TrimRight s' cutset with
      | EmptyString => if inCutset c cutset then EmptyString else String c EmptyString
      | r => String c r
      end
  end.

(** [strings.Trim(s, cutset)] for a cutset of ASCII bytes (the source's
    cutset is the single space): Go trims the right end, then the left. *)
Definition Trim (s cutset : string) : string :=
  TrimLeft (TrimRight s cutset) cutset.

Definition HasPrefix (s prefix : string) : bool := String.prefix prefix s.

Fixpoint dropBytes (n : nat) (s : string) : string :=
  match n, s with
  | O, _ => s
  | S n', String _ s' => dropBytes n' s'
  | S _, EmptyString => EmptyString
  end.

Fixpoint HasSuffix (s suffix : string) : bool :=
  (s =? suffix) ||
  match s with
  | EmptyString => false
  | String _ s' => HasSuffix s' suffix
  end.

(** [strings.Cut]: the text before and after the first occurrence of a
    non-empty separator. *)
Fixpoint Cut (s sep : string) : option (string * string) :=
  if String.prefix sep s then Some (EmptyString, dropBytes (String.length sep) s)
  else match s with
       | EmptyString => None
       | String c s' =>
           match Cut s' sep with
           | Some (before, after) => Some (String c before, after)
           | None => None
           end
       end.

(** [strings.SplitN(s, sep, n)] for a non-empty [sep] and [n > 0]: at most
    [n] substrings, the last one being the unsplit remainder. *)
Fixpoint SplitN (s sep : string) (n : nat) : list string :=
  match n with
  | O => []
  | S O => [s]
  | S n' =>
      match Cut s sep with
      | None => [s]
      | Some (before, after) => before :: SplitN after sep n'
      end
  end.

End strings.

(** A Go [map[string]string] literal with distinct keys, and [m[k]] in its
    two-result form. *)
Fixpoint mapLookup (m : list (string * string)) (k : string) : option string :=
  match m with
  | [] => None
  | (k', v) :: m' => if (k' =? k) then Some v else mapLookup m' k
  end.

(** ** Package path *)

Module path.

(** The scan of [path.Ext] from the last byte backwards, on the reversed
    path: [acc] holds the bytes already passed, in path order. *)
Fixpoint extFrom (rev_path : list ascii) (acc : string) : string :=
  match rev_path with
  | [] => EmptyString
  | c :: rest =>
      if (c =? "/")%char then EmptyString
      else if (c =? ".")%char then String c acc
      else extFrom rest (String c acc)
  end.

Definition Ext (p : string) : string :=
  extFrom (rev (list_ascii_of_string p)) EmptyString.

(** [path.Join] cleans the joined path; it is a parameter. *)
Class Paths : Type := { Join : string -> string -> string }.

End path.

(** ** bufio.Scanner with the default split function (ScanLines) *)

Module bufio.

Definition MaxScanTokenSize : N := 65536.

(** [dropCR], on a line held in reverse. *)
Definition dropCR (rev_line : list byte) : list byte :=
  match rev_line with
  | x0d :: rest => rest
  | _ => rev_line
  end.

(** The tokens [Scan] delivers over a stream that ends.  [acc] is the
    current line in reverse and [n] its length.  A line is cut at its
    newline; the last line needs none; a line that fills the buffer
    ([MaxScanTokenSize] bytes with no newline among them) ends the scan
    (ErrTooLong), with nothing delivered from there on. *)
Fixpoint scanFrom (data : list byte) (acc : list byte) (n : N)
  : list (list byte) :=
  match data with
  | [] => if (n =? 0)%N then [] else [rev (dropCR acc)]
  | b :: data' =>
      if Byte.eqb b x0a then rev (dropCR acc) :: scanFrom data' [] 0%N
      else if (MaxScanTokenSize <=? n + 1)%N then []
      else scanFrom data' (b :: acc) (n + 1)%N
  end.

Definition scanLines (data : list byte) : list (list byte) :=
  scanFrom data [] 0%N.

(** [Scanner.Text] *)
Definition Text (token : list byte) : string := string_of_list_byte token.

End bufio.

(** ** Package time: Parse with the layout "20060102", Format with RFC1123Z *)

Module time.
Import strings.
Open Scope Z_scope.

Definition isDigitByte (c : ascii) : bool := (("0" <=? c) && (c <=? "9"))%char.

(** [isDigit(s, i)]: false when [i] is out of range. *)
Definition isDigit (s : string) (i : nat) : bool :=
  match String.get i s with
  | Some c => isDigitByte c
  | None => false
  end.

Definition digit (c : ascii) : Z := Z.of_N (N_of_ascii c) - 48.

(** [leadingInt]: the leading run of digits and the rest.  (Its overflow
    test needs more than eighteen digits; [atoi] is given four bytes.) *)
Fixpoint leadingInt (s : string) (x : Z) : Z * string :=
  match s with
  | EmptyString => (x, EmptyString)
  | String c s' =>
      if isDigitByte c then leadingInt s' (x * 10 + digit c) else (x, s)
  end.

Definition atoi (s : string) : option Z :=
  let '(neg, s) :=
    match s with
    | String c s' =>
        if ((c =? "-") || (c =? "+"))%char then ((c =? "-")%char, s')
        else (false, s)
    | EmptyString => (false, s)
    end in
  let '(q, rem) := leadingInt s 0 in
  if (rem =? "")%string then Some (if neg then - q else q) else None.

(** [getnum(s, fixed)]: one or two digits, two when [fixed]. *)
Definition getnum (s : string) (fixed : bool) : option (Z * string) :=
  if negb (isDigit s 0) then None
  else if negb (isDigit s 1) then
    if fixed then None
    else match s with
         | String c s' => Some (digit c, s')
         | EmptyString => None
         end
  else match s with
       | String c (String d s') => Some (digit c * 10 + digit d, s')
       | _ => None
       end.

Definition isLeap (year : Z) : bool :=
  (year mod 4 =? 0) && (negb (year mod 100 =? 0) || (year mod 400 =? 0)).

Definition daysIn (month year : Z) : Z :=
  if (month =? 2) && isLeap year then 29
  else match month with
       | 1 => 31 | 2 => 28 | 3 => 31 | 4 => 30 | 5 => 31 | 6 => 30
       | 7 => 31 | 8 => 31 | 9 => 30 | 10 => 31 | 11 => 30 | 12 => 31
       | _ => 0
       end.

(** A [Time] at midnight UTC, which is what a layout without clock and
    zone gives. *)
Record Time : Type := Date { Year : Z; Month : Z; Day : Z }.

(** [time.Parse("20060102", value)]: the chunks stdLongYear, stdZeroMonth
    and stdZeroDay, then the test for text left over and the validation of
    the day of the month.  [None] is a *ParseError. *)
Definition Parse20060102 (value : string) : option Time :=
  if (Nat.ltb (String.length value) 4) || negb (isDigit value 0) then None
  else
    let p := String.substring 0 4 value in
    let value := dropBytes 4 value in
    match atoi p with
    | None => None
    | Some year =>
    match getnum value true with
    | None => None
    | Some (month, value) =>
    if (month <=? 0) || (12 <? month) then None
    else
    match getnum value true with
    | None => None
    | Some (day, value) =>
    if negb (value =? "")%string then None
    else if (day <? 1) || (daysIn month year <? day) then None
    else Some (Date year month day)
    end end end.

(** Days from 1970-01-01 to a date of the proleptic Gregorian calendar. *)
Definition daysSinceEpoch (t : Time) : Z :=
  let y := if Month t <=? 2 then Year t - 1 else Year t in
  let era := y / 400 in
  let yoe := y - era * 400 in
  let mp := if Month t <=? 2 then Month t + 9 else Month t - 3 in
  let doy := (153 * mp + 2) / 5 + Day t - 1 in
  let doe := yoe * 365 + yoe / 4 - yoe / 100 + doy in
  era * 146097 + doe - 719468.

(** [Time.Weekday]: Sunday is 0; 1970-01-01 was a Thursday. *)
Definition Weekday (t : Time) : Z := (daysSinceEpoch t + 4) mod 7.

Definition shortDayNames : list string :=
  ["Sun"; "Mon"; "Tue"; "Wed"; "Thu"; "Fri"; "Sat"]%string.

Definition shortMonthNames : list string :=
  ["Jan"; "Feb"; "Mar"; "Apr"; "May"; "Jun";
   "Jul"; "Aug"; "Sep"; "Oct"; "Nov"; "Dec"]%string.

Definition digitChar (d : Z) : ascii := ascii_of_N (Z.to_N (d mod 10) + 48).

(** [appendInt(b, x, width)] for [0 <= x < 10 ^ width]: [width] digits,
    zero padded. *)
Fixpoint appendInt (x : Z) (width : nat) (tail : string) : string :=
  match width with
  | O => tail
  | S w => appendInt (x / 10) w (String (digitChar x) tail)
  end.

(** [t.Format(time.RFC1123Z)], the layout "Mon, 02 Jan 2006 15:04:05 -0700",
    for a date at midnight UTC with a year of at most four digits. *)
Definition FormatRFC1123Z (t : Time) : string :=
  (nth (Z.to_nat (Weekday t)) shortDayNames "" ++ ", "
   ++ appendInt (Day t) 2 " "
   ++ nth (Z.to_nat (Month t - 1)) shortMonthNames "" ++ " "
   ++ appendInt (Year t) 4 " 00:00:00 +0000")%string.

End time.

(** ** Package youtubedl *)

Module youtubedl.
Import strings.

(** [Format]: a downloadable format.  The pointer type [*Format] of the
    [Formats] slice is [option Format], [None] being nil. *)
Record Format : Type := mkFormat {
  FormatID : string;
  Protocol : string;
  Ext : string;
  ACodec : string;
  VCodec : string;
  TBR : float;
  ABR : float;
  VBR : float;
  NormBR : float;
  NormACodec : string;
  NormVCodec : string
}.

(** [Info]: the decoded JSON, the thumbnail bytes and the raw JSON. *)
Record Info : Type := mkInfo {
  Artist : string;
  Uploader : string;
  Creator : string;
  Title : string;
  Description : string;
  Duration : float;
  Thumbnail : string;
  Formats : list (option Format);
  ThumbnailBytes : list byte;
  rawJSON : list byte
}.

Definition codecNameNormalizeMap : list (string * string) :=
  [ ("none", "");
    ("avc1", "h264");
    ("mp4a", "aac");
    ("mp4v", "h264") ].

Definition normalizeCodecName {U : Unicode} (c : string) : string :=
  let c := Trim c " " in
  let c := ToLower c in
  let p := SplitN c "." 2 in
  let c := hd EmptyString p in
  match mapLookup codecNameNormalizeMap c with
  | Some n => n
  | None => c
  end.

(** guess codecs based on ext *)
Definition codecFromExt {U : Unicode} (ext : string) : string * string :=
  let e := ToLower ext in
  if e =? "mp3" then ("mp3", "")
  else if e =? "mp4" then ("aac", "h264")
  else if e =? "flv" then ("aac", "h264")
  else ("", "").

(** [io.Reader]: the bytes it delivers until it stops, and the error it
    stops with, if that is not io.EOF. *)
Record Reader : Type := mkReader {
  readerData : list byte;
  readerErr : option error
}.

Definition bytesReader (b : list byte) : Reader :=
  {| readerData := b; readerErr := None |}.

(** [ioutil.ReadAll] *)
Definition ReadAll (r : Reader) : result (list byte) :=
  match readerErr r with
  | Some e => Err e
  | None => Ok (readerData r)
  end.

(** [json.Unmarshal(data, i)] on a fresh [Info]: the decoder itself is a
    parameter.  It yields the exported fields; [ThumbnailBytes] (tag "-")
    and the unexported [rawJSON] are out of its reach, so [parseInfo] below
    takes neither from it. *)
Class JSON : Type := { Unmarshal : list byte -> result Info }.

(** The body of the loop over [i.Formats]. *)
Definition normalizeFormat {U : Unicode} (f : Format) : Format :=
  let normACodec := normalizeCodecName (ACodec f) in
  let normVCodec := normalizeCodecName (VCodec f) in
  let '(extACodec, extVCodec) := codecFromExt (Ext f) in
  let normACodec := if ACodec f =? "" then extACodec else normACodec in
  let normVCodec := if VCodec f =? "" then extVCodec else normVCodec in
  let normBR :=
    if negb (PrimFloat.eqb (TBR f) 0) then TBR f
    else PrimFloat.add (ABR f) (VBR f) in
  {| FormatID := FormatID f; Protocol := Protocol f; Ext := Ext f;
     ACodec := ACodec f; VCodec := VCodec f;
     TBR := TBR f; ABR := ABR f; VBR := VBR f;
     NormBR := normBR; NormACodec := normACodec; NormVCodec := normVCodec |}.

(** [for _, f := range i.Formats]: a nil element is dereferenced. *)
Fixpoint rangeFormats {U : Unicode} (fs : list (option Format))
  : result (list (option Format)) :=
  match fs with
  | [] => Ok []
  | None :: _ => Panic
  | Some f :: fs' =>
      fs'' <- rangeFormats fs' ;;
      Ok (Some (normalizeFormat f) :: fs'')
  end.

Definition parseInfo {U : Unicode} {J : JSON} (r : Reader) : result Info :=
  raw <- ReadAll r ;;
  d <- Unmarshal raw ;;
  fs <- rangeFormats (Formats d) ;;
  Ok {| Artist := Artist d; Uploader := Uploader d; Creator := Creator d;
        Title := Title d; Description := Description d;
        Duration := Duration d; Thumbnail := Thumbnail d;
        Formats := fs;
        ThumbnailBytes := [];
        rawJSON := raw |}.

(** *** The file system and the tool *)

(** The part of the file system the package reads: directories with their
    entry names as [ioutil.ReadDir] lists them (sorted by name), and files
    with what reading them gives. *)
Record FileSystem : Type := mkFS {
  dirs : list (string * list string);
  files : list (string * Reader)
}.

Fixpoint assoc {A : Type} (l : list (string * A)) (k : string) : option A :=
  match l with
  | [] => None
  | (k', v) :: l' => if (k' =? k) then Some v else assoc l' k
  end.

Definition ENOENT (name : string) : error :=
  SysError ("open " ++ name ++ ": no such file or directory").

(** [ioutil.ReadDir]: the directory is opened first, and the empty name
    cannot be opened. *)
Definition ReadDir (fs : FileSystem) (dirname : string) : result (list string) :=
  if dirname =? "" then Err (ENOENT dirname)
  else match assoc (dirs fs) dirname with
       | Some names => Ok names
       | None => Err (ENOENT dirname)
       end.

(** [os.Open]: the empty name is no file on any system (ENOENT). *)
Definition Open (fs : FileSystem) (name : string) : result Reader :=
  if name =? "" then Err (ENOENT name)
  else match assoc (files fs) name with
       | Some r => Ok r
       | None => Err (ENOENT name)
       end.

(** [ioutil.ReadFile] *)
Definition ReadFile (fs : FileSystem) (name : string) : result (list byte) :=
  f <- Open fs name ;; ReadAll f.

(** The loop of [NewFromPath] over the directory entries: the last entry
    of each kind wins. *)
Fixpoint locate {P : path.Paths} (infoPath : string) (names : list string)
         (infoJSONPath thumbnailPath : string) : string * string :=
  match names with
  | [] => (infoJSONPath, thumbnailPath)
  | name :: names' =>
      let ext := path.Ext name in
      if ext =? ".json"
      then locate infoPath names' (path.Join infoPath name) thumbnailPath
      else if (ext =? ".png") || (ext =? ".jpg") || (ext =? ".jpeg")
      then locate infoPath names' infoJSONPath (path.Join infoPath name)
      else locate infoPath names' infoJSONPath thumbnailPath
  end.

Definition withThumbnail (i : Info) (b : list byte) : Info :=
  {| Artist := Artist i; Uploader := Uploader i; Creator := Creator i;
     Title := Title i; Description := Description i;
     Duration := Duration i; Thumbnail := Thumbnail i;
     Formats := Formats i;
     ThumbnailBytes := b;
     rawJSON := rawJSON i |}.

(** NewFromPath new Info from path with json and optional image *)
Definition NewFromPath {U : Unicode} {J : JSON} {P : path.Paths}
           (fs : FileSystem) (infoPath : string) : result Info :=
  names <- ReadDir fs infoPath ;;
  let '(infoJSONPath, thumbnailPath) := locate infoPath names "" "" in
  if infoPath =? "" then Err (Errorf "no info json found")
  else
    file <- Open fs infoJSONPath ;;
    i <- parseInfo file ;;
    if negb (thumbnailPath =? "")
    then match ReadFile fs thumbnailPath with
         | Ok b => Ok (withThumbnail i b)
         | Err _ => Err (Errorf "failed to read thumbnail")
         | Panic => Panic
         end
    else Ok i.

(** An [exec.Cmd] as [NewFromURL] sets it up, with the bytes it writes to
    the standard input pipe before closing it. *)
Record Cmd : Type := mkCmd {
  Path : string;
  Args : list string;
  Dir : string;
  StdinData : list byte
}.

(** What running a command shows to the package: whether the pipes and the
    start succeed, the whole of the standard error stream, the result of
    [cmd.Wait] and the files left behind. *)
Record Process : Type := mkProcess {
  stderrPipeErr : option error;
  stdinPipeErr : option error;
  startErr : option error;
  stderrData : list byte;
  waitErr : option error;
  filesAfter : FileSystem
}.

(** The operating system: the directory [ioutil.TempDir] makes (its error
    is dropped by the source) and the behaviour of a command. *)
Class OS : Type := {
  TempDir : string;
  Exec : Cmd -> Process
}.

Definition errorPrefix : string := "ERROR: ".

(** The loop over [stderrLineScanner.Scan()]. *)
Fixpoint scanStderr (tokens : list (list byte)) : option error :=
  match tokens with
  | [] => None
  | token :: tokens' =>
      let line := bufio.Text token in
      if HasPrefix line errorPrefix
      then Some (Error (dropBytes (String.length errorPrefix) line))
      else scanStderr tokens'
  end.

(** [exec.Command("youtube-dl", ...)], [cmd.Dir] and
    [fmt.Fprintln(cmdStdin, url)]. *)
Definition command (tempPath url : string) : Cmd :=
  {| Path := "youtube-dl";
     Args := [ "youtube-dl";
               "--no-call-home";
               "--no-cache-dir";
               "--skip-download";
               "--write-info-json";
               "--write-thumbnail";
               "--batch-file"; "-" ];
     Dir := tempPath;
     StdinData := list_byte_of_string url ++ [x0a] |}.

(** NewFromURL new Info downloaded from URL.  The tool's standard output
    goes to the caller's writer and the deferred removal of the temporary
    directory comes after the result is fixed: neither is modelled. *)
Definition NewFromURL {U : Unicode} {J : JSON} {P : path.Paths} {O : OS} (url : string)
  : result Info :=
  let tempPath := TempDir in
  let p := Exec (command tempPath url) in
  match stderrPipeErr p with
  | Some e => Err e
  | None =>
  match stdinPipeErr p with
  | Some e => Err e
  | None =>
  match startErr p with
  | Some e => Err e
  | None =>
  match scanStderr (bufio.scanLines (stderrData p)) with
  | Some e => Err e
  | None =>
  match waitErr p with
  | Some e => Err e
  | None => NewFromPath (filesAfter p) tempPath
  end end end end end.

(** *** Download *)

(** What [Download] does to the world, in order.  [WaitThenRemoveAll] is
    the goroutine it leaves behind: it waits for the process and then
    removes the directory. *)
Inductive Effect : Type :=
| MkdirTemp (dir : string)
| WriteFile (name : string) (data : list byte) (perm : N)
| StartCmd (c : Cmd)
| WaitThenRemoveAll (dir : string).

(** What the world answers to one call of [Download]: the directory
    [ioutil.TempDir] makes or its error, the errors of [ioutil.WriteFile],
    [cmd.StdoutPipe] and [cmd.Start], and the read end of the pipe. *)
Record DownloadRun : Type := mkDownloadRun {
  tempDirResult : result string;
  writeFileErr : option error;
  stdoutPipeErr : option error;
  downloadStartErr : option error;
  stdoutPipe : Reader
}.

(** [exec.Command("youtube-dl", ...)] and [cmd.Dir] of [Download]; nothing
    is written to the standard input. *)
Definition downloadCommand (tempPath jsonTempPath filter : string) : Cmd :=
  {| Path := "youtube-dl";
     Args := [ "youtube-dl";
               "--no-call-home";
               "--no-cache-dir";
               "--load-info"; jsonTempPath;
               "-f"; filter;
               "-o"; "-" ];
     Dir := tempPath;
     StdinData := [] |}.

(** Download format matched by filter: the reader returned, or the error,
    and the effects up to the return.  0644 is 420. *)
Definition Download {P : path.Paths} (w : DownloadRun) (i : Info)
           (filter : string) : result Reader * list Effect :=
  match tempDirResult w with
  | Err tempErr => (Err tempErr, [])
  | Panic => (Panic, [])
  | Ok tempPath =>
      let jsonTempPath := path.Join tempPath "info.json" in
      match writeFileErr w with
      | Some err => (Err err, [MkdirTemp tempPath])
      | None =>
          let written :=
            [MkdirTemp tempPath; WriteFile jsonTempPath (rawJSON i) 420] in
          match stdoutPipeErr w with
          | Some stderrErr => (Err stderrErr, written)
          | None =>
              match downloadStartErr w with
              | Some err => (Err err, written)
              | None =>
                  (Ok (stdoutPipe w),
                   (written ++ [StartCmd (downloadCommand tempPath jsonTempPath filter);
                                WaitThenRemoveAll tempPath])%list)
              end
          end
      end
  end.

(** *** FormatByNormBR formats sorted by NormBR *)

Definition FormatByNormBR : Type := list (option Format).

Definition Len (a : FormatByNormBR) : nat := length a.

(** [a[i]]: an index out of range is a run-time panic.  (Indices are
    natural numbers here; a negative Go index panics as well.) *)
Definition index (a : FormatByNormBR) (i : nat) : result (option Format) :=
  match nth_error a i with
  | Some x => Ok x
  | None => Panic
  end.

(** [a[i] = x] for an index in range. *)
Fixpoint store (a : FormatByNormBR) (i : nat) (x : option Format)
  : FormatByNormBR :=
  match a, i with
  | [], _ => []
  | _ :: a', O => x :: a'
  | y :: a', S i' => y :: store a' i' x
  end.

(** [a[i], a[j] = a[j], a[i]]: both elements are read, then both are
    written. *)
Definition Swap (a : FormatByNormBR) (i j : nat) : result FormatByNormBR :=
  x <- index a i ;;
  y <- index a j ;;
  Ok (store (store a i y) j x).

(** [a[i].NormBR > a[j].NormBR]: a nil element is dereferenced. *)
Definition Less (a : FormatByNormBR) (i j : nat) : result bool :=
  x <- index a i ;;
  y <- index a j ;;
  match x, y with
  | Some f, Some g => Ok (PrimFloat.ltb (NormBR g) (NormBR f))
  | _, _ => Panic
  end.

End youtubedl.

(** ** Package ydls *)

Module ydls.
Import strings.

(** *** Format negotiation *)

Inductive mediaType : Type := MediaAudio | MediaVideo.

(** Modelled from the spec: which transport protocols the negotiator can
    use.  The spec names the condition and does not define it. *)
Class Protocols : Type := { usable : string -> bool }.

Definition normCodec (media : mediaType) (f : youtubedl.Format) : string :=
  match media with
  | MediaAudio => youtubedl.NormACodec f
  | MediaVideo => youtubedl.NormVCodec f
  end.

(** Modelled from the spec: the test a candidate passes for one preferred
    codec: its normalized codec for the requested kind equals the preferred
    codec, its protocol is usable, and that codec is not empty. *)
Definition accepts {Pr : Protocols} (media : mediaType) (codec : string)
           (f : youtubedl.Format) : bool :=
  (normCodec media f =? codec)
  && usable (youtubedl.Protocol f)
  && negb (normCodec media f =? "").

(** Modelled from the spec: step 1 of the negotiator, preference order
    outer, candidate order inner, first match returned. *)
Fixpoint findPreferred {Pr : Protocols} (formats : list youtubedl.Format)
         (media : mediaType) (codecs : list string)
  : option youtubedl.Format :=
  match codecs with
  | [] => None
  | codec :: codecs' =>
      match find (accepts media codec) formats with
      | Some f => Some f
      | None => findPreferred formats media codecs'
      end
  end.

(** Modelled from the spec: [findYDLFormat], the negotiator that
    TestFindYDLFormat calls; its definition (ydls.go) is not among the
    sources.  [codecs] is the ordered preference list of a
    [stringprioset.Set]; [None] is "not found".  With no preference the
    first candidate with a codec of the requested kind is returned. *)
Definition findYDLFormat {Pr : Protocols} (formats : list youtubedl.Format)
           (media : mediaType) (codecs : list string)
  : option youtubedl.Format :=
  match codecs with
  | [] => find (fun f => negb (normCodec media f =? "")) formats
  | _ => findPreferred formats media codecs
  end.

(** The [Format] literals of TestFindYDLFormat: the fields it leaves out
    are zero. *)
Definition testFormat (id acodec vcodec : string) (tbr : float)
  : youtubedl.Format :=
  {| youtubedl.FormatID := id; youtubedl.Protocol := "http";
     youtubedl.Ext := "";
     youtubedl.ACodec := acodec; youtubedl.VCodec := vcodec;
     youtubedl.TBR := tbr; youtubedl.ABR := 0; youtubedl.VBR := 0;
     youtubedl.NormBR := 0;
     youtubedl.NormACodec := ""; youtubedl.NormVCodec := "" |}.

Definition ydlFormats : list youtubedl.Format :=
  [ testFormat "1" "mp3" "h264" 1;
    testFormat "2" "" "h264" 2;
    testFormat "3" "aac" "" 3;
    testFormat "4" "vorbis" "vp8" 4;
    testFormat "5" "opus" "vp9" 5 ].

(** The catalog: the test's formats with their derived fields computed the
    way [parseInfo] computes them. *)
Definition catalog {U : Unicode} : list youtubedl.Format :=
  map youtubedl.normalizeFormat ydlFormats.

(** [stringsContains] of ydls_test.go. *)
Fixpoint stringsContains (strings : list string) (s : string) : bool :=
  match strings with
  | [] => false
  | ss :: strings' => if ss =? s then true else stringsContains strings' s
  end.

(** *** Feed synthesis (rss.go) *)

(** Modelled from the spec: the fields of [youtubedl.Info] that rss.go
    reads.  The struct this file is compiled against has an ID, a type tag,
    the page URL, the upload date and the playlist entries, which the
    [Info] of package youtubedl above does not declare. *)
#[warnings="-register-all"]
Inductive Info : Type := mkInfo {
  ID : string;
  Type_ : string;
  WebpageURL : string;
  Title : string;
  Thumbnail : string;
  UploadDate : string;
  Entries : list Info
}.

(** The result of [metadataFromYoutubeDLInfo] as far as rss.go reads it. *)
Record Metadata : Type := mkMetadata {
  mTitle : string;
  mArtist : string;
  mComment : string
}.

(** Modelled from the spec: [firstNonEmpty] (ydls.go), the first non-empty
    value among the candidates in their order, else the empty string. *)
Fixpoint firstNonEmpty (candidates : list string) : string :=
  match candidates with
  | [] => ""
  | s :: rest => if s =? "" then firstNonEmpty rest else s
  end.

Section Feed.

(** [*url.URL] values and the operations on them (package net/url). *)
Variable URL : Type.

(** [ydls.Format] and [DownloadOptions] as far as rss.go reads them; the
    pointer [options.Format] is an [option]. *)
Inductive DownloadOptions : Type := mkDownloadOptions {
  MediaRawURL : string;
  Format : option YFormat;
  BaseURL : option URL;
  Items : Z
}
with YFormat : Type := mkYFormat {
  Name : string;
  Ext : string;
  MIMEType : string;
  EnclosureDownloadOptions : DownloadOptions
}.

(** What rss.go calls and does not define: net/url, the method
    [DownloadOptions.URL] and [metadataFromYoutubeDLInfo] (ydls.go). *)
Record Env : Type := mkEnv {
  zeroURL : URL;                          (* &url.URL{} *)
  pathURL : string -> URL;                (* &url.URL{Path: p} *)
  fragmentURL : string -> URL;            (* &url.URL{Fragment: f} *)
  ResolveReference : URL -> URL -> URL;
  URLString : URL -> string;
  optionsURL : DownloadOptions -> URL;
  metadataFromYoutubeDLInfo : Info -> Metadata
}.

Variable env : Env.

(** Package rss, as far as rss.go fills it. *)
Record Enclosure : Type := mkEnclosure {
  EnclosureURL : string;
  EnclosureType : string
}.

Record Item : Type := mkItem {
  GUID : string;
  PubDate : string;
  ItunesAuthor : string;
  ItemItunesImage : string;
  ItemLink : string;
  ItemTitle : string;
  ItemDescription : string;
  ItemEnclosure : Enclosure
}.

Record Image : Type := mkImage {
  ImageURL : string;
  ImageTitle : string;
  ImageLink : string
}.

Record Channel : Type := mkChannel {
  ChannelTitle : string;
  ChannelDescription : string;
  ChannelLink : string;
  ChannelImage : option Image;
  ChannelItunesImage : string;
  ChannelItems : list Item
}.

Record RSS : Type := mkRSS {
  Version : string;
  XMLNSItunes : string;
  RSSChannel : Channel
}.

(** [rss.XMLNSItunes], as TestRSSStructure spells the namespace. *)
Definition rssXMLNSItunes : string :=
  "http://www.itunes.com/dtds/podcast-1.0.dtd".

(** skip nested playlists *)
Definition nestedPlaylist (entry : Info) : bool :=
  (Type_ entry =? "playlist") || (Type_ entry =? "multi_video").

(** Lines 61-66: the publish date of an entry. *)
Definition pubDateOf (entry : Info) : string :=
  if negb (UploadDate entry =? "") then
    match time.Parse20060102 (UploadDate entry) with
    | Some d => time.FormatRFC1123Z d
    | None => ""
    end
  else "".

(** The body of the loop for an entry that is not skipped. *)
Definition itemOf (enclosureDownloadOptions : DownloadOptions)
           (enclosureFormat : YFormat) (baseURL feedURL : URL)
           (entry : Info) : Item :=
  let guid :=
    URLString env (ResolveReference env feedURL (fragmentURL env (ID entry))) in
  let entryDownloadOptions :=
    {| MediaRawURL := WebpageURL entry;
       Format := Format enclosureDownloadOptions;
       BaseURL := Some (ResolveReference env baseURL
                          (pathURL env ("media." ++ Ext enclosureFormat)));
       Items := Items enclosureDownloadOptions |} in
  let enclosure :=
    {| EnclosureURL := URLString env (optionsURL env entryDownloadOptions);
       EnclosureType := MIMEType enclosureFormat |} in
  let entryMetadata := metadataFromYoutubeDLInfo env entry in
  {| GUID := guid;
     PubDate := pubDateOf entry;
     ItunesAuthor := mArtist entryMetadata;
     ItemItunesImage := Thumbnail entry;
     ItemLink := WebpageURL entry;
     ItemTitle := mTitle entryMetadata;
     ItemDescription := mComment entryMetadata;
     ItemEnclosure := enclosure |}.

(** [for _, entry := range info.Entries]: the items appended, in order. *)
Fixpoint rangeEntries (mk : Info -> Item) (entries : list Info) : list Item :=
  match entries with
  | [] => []
  | entry :: entries' =>
      if nestedPlaylist entry then rangeEntries mk entries'
      else mk entry :: rangeEntries mk entries'
  end.

Definition RSSFromYDLSInfo (options : DownloadOptions) (info : Info)
           (linkIconRawURL : string) : result RSS :=
  match Format options with
  | None => Panic
  | Some format =>
  let enclosureDownloadOptions := EnclosureDownloadOptions format in
  let metadata := metadataFromYoutubeDLInfo env info in
  let baseURL :=
    match BaseURL options with
    | Some u => u
    | None => zeroURL env
    end in
  match Format enclosureDownloadOptions with
  | None => Panic
  | Some enclosureFormat =>
  let feedURL :=
    ResolveReference env baseURL
      (pathURL env (Name enclosureFormat ++ "/" ++ WebpageURL info)) in
  let thumbnail := firstNonEmpty [Thumbnail info; linkIconRawURL] in
  let items :=
    rangeEntries
      (itemOf enclosureDownloadOptions enclosureFormat baseURL feedURL)
      (Entries info) in
  Ok {| Version := "2.0";
        XMLNSItunes := rssXMLNSItunes;
        RSSChannel :=
          {| ChannelTitle := firstNonEmpty [mTitle metadata; mArtist metadata];
             ChannelDescription := mComment metadata;
             ChannelLink := WebpageURL info;
             ChannelImage :=
               if negb (thumbnail =? "")
               then Some {| ImageURL := thumbnail;
                            ImageTitle := Title info;
                            ImageLink := WebpageURL info |}
               else None;
             ChannelItunesImage :=
               if negb (thumbnail =? "") then thumbnail else "";
             ChannelItems := items |} |}
  end end.

End Feed.

End ydls.

(** * Specification side

    The notions the statements below are written with, and the sample
    values their examples run on. *)

Import strings.

(** [n] space characters. *)
Fixpoint spaces (n : nat) : string :=
  match n with
  | O => EmptyString
  | S n' => String " " (spaces n')
  end.

(** The text before the first dot. *)
Fixpoint upToDot (s : string) : string :=
  match s with
  | EmptyString => EmptyString
  | String c s' => if (c =? ".")%char then EmptyString else String c (upToDot s')
  end.

Definition noDot (p : string) : Prop := ~ In "."%char (list_ascii_of_string p).

(** [p] is [l] cut at its first dot. *)
Definition truncatedAtDot (l p : string) : Prop :=
  noDot p /\ (l = p \/ exists rest, l = p ++ String "." rest).

(** The canonical name of a trimmed, lower-cased, truncated tag. *)
Definition canonical (p : string) : string :=
  if (p =? "avc1") || (p =? "mp4v") then "h264"
  else if p =? "mp4a" then "aac"
  else if p =? "none" then ""
  else p.

(** Space, tab, line feed, vertical tab, form feed and carriage return. *)
Definition whitespace : string :=
  String " " (String "009" (String "010" (String "011"
    (String "012" (String "013" EmptyString))))).

(** Normalization as the specification words it: surrounding whitespace is
    stripped, then the tag is lower-cased, truncated and canonicalized. *)
Definition specNormalizeCodecName {U : Unicode} (c : string) : string :=
  canonical (upToDot (ToLower (Trim c whitespace))).

(** The container-extension table: (audio codec, video codec). *)
Definition extensionTable (e : string) : string * string :=
  if e =? "mp3" then ("mp3", "")
  else if (e =? "mp4") || (e =? "flv") then ("aac", "h264")
  else ("", "").

(** [f] is the choice among [formats] for the preference list [codecs]: it
    is the first candidate accepted for some preferred codec, and no candidate
    at all is accepted for a codec preferred to that one. *)
Definition firstChoice {Pr : ydls.Protocols}
           (formats : list youtubedl.Format) (media : ydls.mediaType)
           (codecs : list string) (f : youtubedl.Format) : Prop :=
  exists cs1 c cs2 fs1 fs2,
    codecs = (cs1 ++ c :: cs2)%list /\ formats = (fs1 ++ f :: fs2)%list
    /\ ydls.accepts media c f = true
    /\ (forall c' g, In c' cs1 -> In g formats -> ydls.accepts media c' g = false)
    /\ (forall g, In g fs1 -> ydls.accepts media c g = false).

(** The date an upload-date token stands for: eight decimal digits, year,
    month and day, naming a day of the calendar. *)
Definition dateOfToken (s : string) : option time.Time :=
  match list_ascii_of_string s with
  | [y1; y2; y3; y4; m1; m2; d1; d2] =>
      if forallb time.isDigitByte [y1; y2; y3; y4; m1; m2; d1; d2] then
        let year := (1000 * time.digit y1 + 100 * time.digit y2
                     + 10 * time.digit y3 + time.digit y4)%Z in
        let month := (10 * time.digit m1 + time.digit m2)%Z in
        let day := (10 * time.digit d1 + time.digit d2)%Z in
        if ((1 <=? month) && (month <=? 12)
            && (1 <=? day) && (day <=? time.daysIn month year))%Z
        then Some (time.Date year month day)
        else None
      else None
  | _ => None
  end.

(** The entries a feed lists: those that are not nested playlists. *)
Definition eligible (entry : ydls.Info) : bool := negb (ydls.nestedPlaylist entry).

(** [options] with another item limit. *)
Definition withItems {URL : Type} (n : Z) (o : ydls.DownloadOptions URL)
  : ydls.DownloadOptions URL :=
  {| ydls.MediaRawURL := ydls.MediaRawURL o; ydls.Format := ydls.Format o;
     ydls.BaseURL := ydls.BaseURL o; ydls.Items := n |}.

(** ** Sample values *)

(** A Unicode mapping for the examples, whose strings are all ASCII. *)
Definition sampleUnicode : Unicode := {| mapToLower := fun s => s |}.

Definition webProtocols : ydls.Protocols :=
  {| ydls.usable := fun p => (p =? "http") || (p =? "https") |}.

Definition sampleFormat (ext acodec vcodec : string) : youtubedl.Format :=
  {| youtubedl.FormatID := "18"; youtubedl.Protocol := "https";
     youtubedl.Ext := ext;
     youtubedl.ACodec := acodec; youtubedl.VCodec := vcodec;
     youtubedl.TBR := 0; youtubedl.ABR := 96; youtubedl.VBR := 400;
     youtubedl.NormBR := 0;
     youtubedl.NormACodec := ""; youtubedl.NormVCodec := "" |}.

Definition sampleInfo (fs : list (option youtubedl.Format)) : youtubedl.Info :=
  {| youtubedl.Artist := ""; youtubedl.Uploader := "uploader";
     youtubedl.Creator := "";
     youtubedl.Title := "title"; youtubedl.Description := "";
     youtubedl.Duration := 12;
     youtubedl.Thumbnail := ""; youtubedl.Formats := fs;
     youtubedl.ThumbnailBytes := []; youtubedl.rawJSON := [] |}.

(** A decoder for the examples: every input decodes to one and the same
    value. *)
Definition constJSON (i : youtubedl.Info) : youtubedl.JSON :=
  {| youtubedl.Unmarshal := fun _ => Ok i |}.

Definition sampleDecoded : youtubedl.Info :=
  sampleInfo [Some (sampleFormat "MP4" "" "vp9")].

Definition sampleRaw : list byte := [x7b; x7d].

Definition sampleParsed : youtubedl.Info :=
  {| youtubedl.Artist := ""; youtubedl.Uploader := "uploader";
     youtubedl.Creator := "";
     youtubedl.Title := "title"; youtubedl.Description := "";
     youtubedl.Duration := 12;
     youtubedl.Thumbnail := "";
     youtubedl.Formats :=
       [Some (youtubedl.normalizeFormat (U := sampleUnicode)
                (sampleFormat "MP4" "" "vp9"))];
     youtubedl.ThumbnailBytes := []; youtubedl.rawJSON := sampleRaw |}.

Definition samplePaths : path.Paths :=
  {| path.Join := fun dir name => dir ++ "/" ++ name |}.

Definition sampleDir : string := "/tmp/ydls-youtubedl042".

(** A directory with a thumbnail and no JSON file. *)
Definition thumbnailOnlyFS : youtubedl.FileSystem :=
  {| youtubedl.dirs := [(sampleDir, ["clip.jpg"])];
     youtubedl.files :=
       [(sampleDir ++ "/clip.jpg", youtubedl.bytesReader [xff; xd8])] |}.

(** A tool run that reports an error on its second line of diagnostics and
    then exits with a failure. *)
Definition failingRun : youtubedl.Process :=
  {| youtubedl.stderrPipeErr := None;
     youtubedl.stdinPipeErr := None;
     youtubedl.startErr := None;
     youtubedl.stderrData :=
       list_byte_of_string
         ("WARNING: unable to extract uploader" ++ String "010"
          ("ERROR: Unsupported URL" ++ String "010" ""));
     youtubedl.waitErr := Some (SysError "exit status 1");
     youtubedl.filesAfter := thumbnailOnlyFS |}.

Definition failingOS : youtubedl.OS :=
  {| youtubedl.TempDir := sampleDir;
     youtubedl.Exec := fun _ => failingRun |}.

(** Stand-ins for net/url in the examples: a URL is its text and resolving a
    reference appends it. *)
Definition textEnv : ydls.Env string :=
  {| ydls.zeroURL := "";
     ydls.pathURL := fun p => "/" ++ p;
     ydls.fragmentURL := fun f => "#" ++ f;
     ydls.ResolveReference := fun base ref => base ++ ref;
     ydls.URLString := fun u => u;
     ydls.optionsURL := fun o =>
       match ydls.BaseURL o with Some b => b | None => "" end
       ++ "?url=" ++ ydls.MediaRawURL o;
     ydls.metadataFromYoutubeDLInfo := fun i =>
       {| ydls.mTitle := ydls.Title i; ydls.mArtist := ""; ydls.mComment := "" |} |}.

Definition mp3Format : ydls.YFormat string :=
  {| ydls.Name := "mp3"; ydls.Ext := "mp3"; ydls.MIMEType := "audio/mpeg";
     ydls.EnclosureDownloadOptions :=
       {| ydls.MediaRawURL := ""; ydls.Format := None;
          ydls.BaseURL := None; ydls.Items := 0 |} |}.

Definition rssFormat : ydls.YFormat string :=
  {| ydls.Name := "rss"; ydls.Ext := "rss"; ydls.MIMEType := "text/xml";
     ydls.EnclosureDownloadOptions :=
       {| ydls.MediaRawURL := ""; ydls.Format := Some mp3Format;
          ydls.BaseURL := None; ydls.Items := 0 |} |}.

Definition rssOptions (items : Z) : ydls.DownloadOptions string :=
  {| ydls.MediaRawURL := "https://example.com/sets/a";
     ydls.Format := Some rssFormat;
     ydls.BaseURL := Some "http://dummy";
     ydls.Items := items |}.

Definition track (id type date : string) : ydls.Info :=
  {| ydls.ID := id; ydls.Type_ := type;
     ydls.WebpageURL := "https://example.com/" ++ id;
     ydls.Title := "track " ++ id; ydls.Thumbnail := "";
     ydls.UploadDate := date; ydls.Entries := [] |}.

(** Two plain tracks, one with a malformed date, and two nested playlists. *)
Definition playlist : ydls.Info :=
  {| ydls.ID := "a"; ydls.Type_ := "playlist";
     ydls.WebpageURL := "https://example.com/sets/a";
     ydls.Title := "a"; ydls.Thumbnail := "";
     ydls.UploadDate := "";
     ydls.Entries := [ track "1" "" "20240201";
                       track "2" "playlist" "";
                       track "3" "url" "2024-13-99";
                       track "4" "multi_video" "20240101" ] |}.

(** ** Notions for the further properties *)

(** A format with its derived fields cleared. *)
Definition eraseNorm (f : youtubedl.Format) : youtubedl.Format :=
  {| youtubedl.FormatID := youtubedl.FormatID f;
     youtubedl.Protocol := youtubedl.Protocol f;
     youtubedl.Ext := youtubedl.Ext f;
     youtubedl.ACodec := youtubedl.ACodec f;
     youtubedl.VCodec := youtubedl.VCodec f;
     youtubedl.TBR := youtubedl.TBR f;
     youtubedl.ABR := youtubedl.ABR f;
     youtubedl.VBR := youtubedl.VBR f;
     youtubedl.NormBR := 0;
     youtubedl.NormACodec := "";
     youtubedl.NormVCodec := "" |}.

Definition eraseNormInfo (d : youtubedl.Info) : youtubedl.Info :=
  {| youtubedl.Artist := youtubedl.Artist d;
     youtubedl.Uploader := youtubedl.Uploader d;
     youtubedl.Creator := youtubedl.Creator d;
     youtubedl.Title := youtubedl.Title d;
     youtubedl.Description := youtubedl.Description d;
     youtubedl.Duration := youtubedl.Duration d;
     youtubedl.Thumbnail := youtubedl.Thumbnail d;
     youtubedl.Formats := map (option_map eraseNorm) (youtubedl.Formats d);
     youtubedl.ThumbnailBytes := youtubedl.ThumbnailBytes d;
     youtubedl.rawJSON := youtubedl.rawJSON d |}.

(** A decoder that drops whatever the JSON says about the derived fields. *)
Definition forgetNorm (J : youtubedl.JSON) : youtubedl.JSON :=
  {| youtubedl.Unmarshal := fun b =>
       match youtubedl.Unmarshal b with
       | Ok d => Ok (eraseNormInfo d)
       | Err e => Err e
       | Panic => Panic
       end |}.

(** The last name of a listing that passes a test. *)
Fixpoint lastWith (p : string -> bool) (names : list string) : option string :=
  match names with
  | [] => None
  | n :: names' =>
      match lastWith p names' with
      | Some m => Some m
      | None => if p n then Some n else None
      end
  end.

Definition isJSONName (name : string) : bool := HasSuffix name ".json".

Definition isImageName (name : string) : bool :=
  HasSuffix name ".png" || HasSuffix name ".jpg" || HasSuffix name ".jpeg".

(** The bytes of a file name extension after its dot: no dot, no slash. *)
Fixpoint plainBytes (x : string) : bool :=
  match x with
  | EmptyString => true
  | String c x' => negb (c =? "/")%char && negb (c =? ".")%char && plainBytes x'
  end.

(** A directory that holds the one file [Download] writes. *)
Definition writtenFS {P : path.Paths} (tempPath : string) (raw : list byte)
  : youtubedl.FileSystem :=
  {| youtubedl.dirs := [(tempPath, ["info.json"])];
     youtubedl.files :=
       [(path.Join tempPath "info.json", youtubedl.bytesReader raw)] |}.

(** The exchange of two indices. *)
Definition transpose (i j k : nat) : nat :=
  if Nat.eqb k i then j else if Nat.eqb k j then i else k.

Definition notEOL (b : byte) : bool := negb (Byte.eqb b x0a) && negb (Byte.eqb b x0d).

Definition notLF (b : byte) : bool := negb (Byte.eqb b x0a).

(** ** More sample values *)

Definition sampleRun (startErr : option error) : youtubedl.DownloadRun :=
  {| youtubedl.tempDirResult := Ok sampleDir;
     youtubedl.writeFileErr := None;
     youtubedl.stdoutPipeErr := None;
     youtubedl.downloadStartErr := startErr;
     youtubedl.stdoutPipe := youtubedl.bytesReader [x1a; x45] |}.

(** A directory with two JSON files and a thumbnail. *)
Definition twoJSONFS : youtubedl.FileSystem :=
  {| youtubedl.dirs := [(sampleDir, ["a.info.json"; "b.info.json"; "b.png"])];
     youtubedl.files :=
       [(sampleDir ++ "/a.info.json", youtubedl.bytesReader [x5b; x5d]);
        (sampleDir ++ "/b.info.json", youtubedl.bytesReader sampleRaw);
        (sampleDir ++ "/b.png", youtubedl.bytesReader [x89; x50])] |}.

(** The same directory, its thumbnail unreadable. *)
Definition brokenThumbnailFS : youtubedl.FileSystem :=
  {| youtubedl.dirs := [(sampleDir, ["b.info.json"; "b.png"])];
     youtubedl.files :=
       [(sampleDir ++ "/b.info.json", youtubedl.bytesReader sampleRaw);
        (sampleDir ++ "/b.png",
         {| youtubedl.readerData := [];
            youtubedl.readerErr := Some (SysError "input/output error") |})] |}.

(** A tool run whose diagnostics are given, and which exits well. *)
Definition runWith (diagnostics : list byte) : youtubedl.Process :=
  {| youtubedl.stderrPipeErr := None;
     youtubedl.stdinPipeErr := None;
     youtubedl.startErr := None;
     youtubedl.stderrData := diagnostics;
     youtubedl.waitErr := None;
     youtubedl.filesAfter := twoJSONFS |}.

Definition osWith (diagnostics : list byte) : youtubedl.OS :=
  {| youtubedl.TempDir := sampleDir;
     youtubedl.Exec := fun _ => runWith diagnostics |}.

Definition threeFormats : youtubedl.FormatByNormBR :=
  map (fun f => Some (youtubedl.normalizeFormat (U := sampleUnicode) f))
      [ ydls.testFormat "1" "mp3" "h264" 1;
        ydls.testFormat "2" "" "h264" 2;
        ydls.testFormat "3" "aac" "" 3 ].

(** * Facts about the string functions *)

Ltac each_byte c := destruct c as [[] [] [] [] [] [] [] []].

Section StringFacts.

Lemma lowerByte_idem c : lowerByte (lowerByte c) = lowerByte c.
Proof. each_byte c; reflexivity. Qed.

Lemma lowerByte_space c : (lowerByte c =? " ")%char = (c =? " ")%char.
Proof. each_byte c; reflexivity. Qed.

Lemma lowerByte_ascii c : isASCIIByte (lowerByte c) = isASCIIByte c.
Proof. each_byte c; reflexivity. Qed.

Lemma lowerByte_dot c : (lowerByte c =? ".")%char = (c =? ".")%char.
Proof. each_byte c; reflexivity. Qed.

Lemma inCutset_space c : inCutset c " " = (c =? " ")%char.
Proof. simpl. apply orb_false_r. Qed.

Lemma prefix_empty s : String.prefix "" s = true.
Proof. destruct s; reflexivity. Qed.

Lemma append_empty_r s : s ++ "" = s.
Proof. induction s as [|c s IH]; cbn; congruence. Qed.

Lemma append_not_empty a b : b <> "" -> a ++ b <> "".
Proof. destruct a; cbn; [trivial|discriminate]. Qed.

Lemma hd_SplitN_dot s : hd EmptyString (SplitN s "." 2) = upToDot s.
Proof.
  induction s as [|c s IH]; [reflexivity|].
  cbn [SplitN hd] in *.
  cbn [Cut String.prefix].
  destruct (ascii_dec "." c) as [e|ne].
  - subst c. rewrite prefix_empty. reflexivity.
  - cbn [upToDot]. destruct (Ascii.eqb_spec c "."); [congruence|].
    destruct (Cut s ".") as [[b a]|] eqn:E; cbn [hd] in *; congruence.
Qed.

Lemma HasPrefix_space c s : HasPrefix (String c s) " " = (c =? " ")%char.
Proof.
  unfold HasPrefix. cbn [String.prefix].
  destruct (ascii_dec " " c) as [e|ne].
  - subst c. apply prefix_empty.
  - destruct (Ascii.eqb_spec c " "); congruence.
Qed.

Lemma HasPrefix_split s pre :
  HasPrefix s pre = true -> s = pre ++ dropBytes (String.length pre) s.
Proof.
  unfold HasPrefix. revert s. induction pre as [|c pre IH]; intros s H; [reflexivity|].
  destruct s as [|d s]; [discriminate|]. cbn in H.
  destruct (ascii_dec c d) as [->|]; [|discriminate].
  cbn. f_equal. now apply IH.
Qed.

Lemma HasSuffix_cons c s :
  HasSuffix (String c s) " " = (String c s =? " ") || HasSuffix s " ".
Proof. reflexivity. Qed.

Lemma HasSuffix_refl r : HasSuffix r r = true.
Proof. destruct r; cbn [HasSuffix]; now rewrite String.eqb_refl. Qed.

Lemma HasSuffix_append pre r : HasSuffix (pre ++ r) r = true.
Proof.
  induction pre as [|c pre IH]; [apply HasSuffix_refl|].
  cbn [append HasSuffix]. rewrite IH. apply orb_true_r.
Qed.

Lemma single_space_eqb c s :
  (String c s =? " ") = (c =? " ")%char && (s =? "").
Proof. reflexivity. Qed.

(** ** TrimLeft and TrimRight with the cutset " " *)

Lemma TrimLeft_cons c s :
  TrimLeft (String c s) " "
  = if (c =? " ")%char then TrimLeft s " " else String c s.
Proof. cbn [TrimLeft]. rewrite inCutset_space. reflexivity. Qed.

Lemma TrimRight_cons c s :
  TrimRight (String c s) " " =
  match TrimRight s " " with
  | EmptyString => if (c =? " ")%char then EmptyString else String c EmptyString
  | r => String c r
  end.
Proof. cbn [TrimRight]. rewrite inCutset_space. reflexivity. Qed.

Lemma TrimLeft_split s :
  exists a, s = spaces a ++ TrimLeft s " "
            /\ HasPrefix (TrimLeft s " ") " " = false.
Proof.
  induction s as [|c s [a [E P]]].
  - exists O. split; reflexivity.
  - rewrite TrimLeft_cons. destruct (Ascii.eqb_spec c " ") as [->|ne].
    + exists (S a). split; [cbn; f_equal; exact E | exact P].
    + exists O. split; [reflexivity|].
      rewrite HasPrefix_space. now apply Ascii.eqb_neq.
Qed.

Lemma TrimRight_split s :
  exists b, s = TrimRight s " " ++ spaces b
            /\ HasSuffix (TrimRight s " ") " " = false.
Proof.
  induction s as [|c s [b [E P]]].
  - exists O. split; reflexivity.
  - rewrite TrimRight_cons. destruct (TrimRight s " ") as [|d r] eqn:T.
    + destruct (Ascii.eqb_spec c " ") as [->|ne].
      * exists (S b). split; [cbn; f_equal; exact E | reflexivity].
      * exists b. split; [cbn; f_equal; exact E|].
        rewrite HasSuffix_cons, single_space_eqb.
        apply Ascii.eqb_neq in ne. rewrite ne. reflexivity.
    + exists b. split; [cbn; f_equal; exact E|].
      rewrite HasSuffix_cons, P, single_space_eqb. cbn.
      now rewrite andb_false_r.
Qed.

Lemma TrimLeft_keeps_end s :
  HasSuffix s " " = false -> HasSuffix (TrimLeft s " ") " " = false.
Proof.
  induction s as [|c s IH]; [trivial|].
  intros H. rewrite TrimLeft_cons. destruct (c =? " ")%char; [|exact H].
  apply IH. rewrite HasSuffix_cons in H. now apply orb_false_elim in H.
Qed.

Lemma TrimLeft_id s : HasPrefix s " " = false -> TrimLeft s " " = s.
Proof.
  destruct s as [|c s]; [trivial|].
  rewrite HasPrefix_space, TrimLeft_cons. now intros ->.
Qed.

Lemma TrimRight_id s : HasSuffix s " " = false -> TrimRight s " " = s.
Proof.
  induction s as [|c s IH]; [trivial|].
  rewrite HasSuffix_cons, single_space_eqb. intros H.
  apply orb_false_elim in H. destruct H as [H1 H2].
  rewrite TrimRight_cons, (IH H2).
  destruct s as [|d s]; [|reflexivity].
  cbn in H1. rewrite andb_true_r in H1. now rewrite H1.
Qed.

Lemma Trim_id s :
  HasPrefix s " " = false -> HasSuffix s " " = false -> Trim s " " = s.
Proof.
  intros P S. unfold Trim. rewrite TrimRight_id by exact S.
  now apply TrimLeft_id.
Qed.

Lemma TrimLeft_length s : String.length (TrimLeft s " ") <= String.length s.
Proof.
  induction s as [|c s IH]; [cbn; lia|].
  rewrite TrimLeft_cons. destruct (c =? " ")%char; cbn in *; lia.
Qed.

Lemma TrimRight_shorter s :
  HasSuffix s " " = true ->
  String.length (TrimRight s " ") < String.length s.
Proof.
  induction s as [|c s IH]; [discriminate|].
  rewrite HasSuffix_cons, single_space_eqb. intros H.
  rewrite TrimRight_cons.
  destruct (HasSuffix s " ") eqn:S.
  - specialize (IH eq_refl).
    destruct (TrimRight s " "); [destruct (c =? " ")%char|]; cbn in *; lia.
  - rewrite orb_false_r in H. apply andb_prop in H. destruct H as [H1 H2].
    apply String.eqb_eq in H2. subst s. cbn [TrimRight]. rewrite H1.
    cbn. lia.
Qed.

Lemma Trim_shorter s :
  HasSuffix s " " = true -> String.length (Trim s " ") < String.length s.
Proof.
  intros H. unfold Trim.
  pose proof (TrimLeft_length (TrimRight s " ")).
  pose proof (TrimRight_shorter s H). lia.
Qed.

Lemma Trim_split s :
  exists a b, s = spaces a ++ Trim s " " ++ spaces b
              /\ HasPrefix (Trim s " ") " " = false
              /\ HasSuffix (Trim s " ") " " = false.
Proof.
  destruct (TrimRight_split s) as [b [E S]].
  destruct (TrimLeft_split (TrimRight s " ")) as [a [E' P]].
  exists a, b. unfold Trim. repeat split.
  - rewrite E at 1. rewrite E' at 1.
    clear. induction (spaces a); cbn; [reflexivity|now f_equal].
  - exact P.
  - now apply TrimLeft_keeps_end.
Qed.

(** ** ASCII strings and lower-casing *)

Lemma isASCII_cons c s : isASCII (String c s) = isASCIIByte c && isASCII s.
Proof. reflexivity. Qed.

Lemma isASCII_TrimLeft s : isASCII s = true -> isASCII (TrimLeft s " ") = true.
Proof.
  induction s as [|c s IH]; [trivial|].
  intros H. rewrite TrimLeft_cons. destruct (c =? " ")%char; [|exact H].
  apply IH. rewrite isASCII_cons in H. now apply andb_prop in H.
Qed.

Lemma isASCII_TrimRight s : isASCII s = true -> isASCII (TrimRight s " ") = true.
Proof.
  induction s as [|c s IH]; [trivial|].
  rewrite isASCII_cons. intros H. apply andb_prop in H. destruct H as [Hc Hs].
  rewrite TrimRight_cons. specialize (IH Hs).
  destruct (TrimRight s " ") as [|d r].
  - destruct (c =? " ")%char; [reflexivity|]. cbn. now rewrite Hc.
  - rewrite isASCII_cons, Hc. exact IH.
Qed.

Lemma isASCII_Trim s : isASCII s = true -> isASCII (Trim s " ") = true.
Proof. intros H. apply isASCII_TrimLeft, isASCII_TrimRight, H. Qed.

Lemma isASCII_lowerBytes s : isASCII (lowerBytes s) = isASCII s.
Proof.
  induction s as [|c s IH]; [reflexivity|].
  cbn [lowerBytes]. now rewrite !isASCII_cons, lowerByte_ascii, IH.
Qed.

Lemma lowerBytes_idem s : lowerBytes (lowerBytes s) = lowerBytes s.
Proof.
  induction s as [|c s IH]; [reflexivity|].
  cbn. now rewrite lowerByte_idem, IH.
Qed.

Lemma lowerBytes_length s : String.length (lowerBytes s) = String.length s.
Proof. induction s as [|c s IH]; cbn; congruence. Qed.

Lemma lowerBytes_TrimLeft s :
  lowerBytes (TrimLeft s " ") = TrimLeft (lowerBytes s) " ".
Proof.
  induction s as [|c s IH]; [reflexivity|].
  cbn [lowerBytes]. rewrite !TrimLeft_cons, lowerByte_space.
  destruct (c =? " ")%char; [exact IH | reflexivity].
Qed.

Lemma lowerBytes_TrimRight s :
  lowerBytes (TrimRight s " ") = TrimRight (lowerBytes s) " ".
Proof.
  induction s as [|c s IH]; [reflexivity|].
  cbn [lowerBytes]. rewrite !TrimRight_cons, lowerByte_space, <- IH.
  destruct (TrimRight s " ") as [|d r]; [|reflexivity].
  cbn [lowerBytes]. destruct (c =? " ")%char; reflexivity.
Qed.

Lemma lowerBytes_Trim s : lowerBytes (Trim s " ") = Trim (lowerBytes s) " ".
Proof. unfold Trim. now rewrite lowerBytes_TrimLeft, lowerBytes_TrimRight. Qed.

Lemma HasPrefix_lowerBytes s : HasPrefix (lowerBytes s) " " = HasPrefix s " ".
Proof.
  destruct s as [|c s]; [reflexivity|].
  cbn [lowerBytes]. now rewrite !HasPrefix_space, lowerByte_space.
Qed.

Lemma ToLower_ascii {U : Unicode} s :
  isASCII s = true -> ToLower s = lowerBytes s.
Proof. unfold ToLower. now intros ->. Qed.

(** ** Surrounding spaces *)

Lemma TrimLeft_spaces a s : TrimLeft (spaces a ++ s) " " = TrimLeft s " ".
Proof.
  induction a as [|a IH]; [reflexivity|].
  cbn [spaces append]. now rewrite TrimLeft_cons.
Qed.

Lemma TrimRight_only_spaces b : TrimRight (spaces b) " " = "".
Proof.
  induction b as [|b IH]; [reflexivity|].
  cbn [spaces]. now rewrite TrimRight_cons, IH.
Qed.

Lemma TrimRight_spaces s b : TrimRight (s ++ spaces b) " " = TrimRight s " ".
Proof.
  induction s as [|c s IH]; [apply TrimRight_only_spaces|].
  cbn [append]. now rewrite !TrimRight_cons, IH.
Qed.

Lemma TrimRight_leading a s :
  TrimRight (spaces a ++ s) " " =
  match TrimRight s " " with
  | EmptyString => EmptyString
  | r => spaces a ++ r
  end.
Proof.
  induction a as [|a IH]; [cbn; now destruct (TrimRight s " ")|].
  cbn [spaces append]. rewrite TrimRight_cons, IH.
  destruct (TrimRight s " ") as [|d r]; [reflexivity|].
  destruct a; reflexivity.
Qed.

Lemma Trim_spaces a s b : Trim (spaces a ++ s ++ spaces b) " " = Trim s " ".
Proof.
  unfold Trim. rewrite TrimRight_leading, TrimRight_spaces.
  destruct (TrimRight s " ") as [|d r]; [reflexivity|].
  apply TrimLeft_spaces.
Qed.

(** ** Truncation at the first dot *)

Lemma upToDot_spec s : truncatedAtDot s (upToDot s).
Proof.
  induction s as [|c s [N A]].
  - split; [intros []|now left].
  - cbn [upToDot]. destruct (Ascii.eqb_spec c ".") as [->|ne].
    + split; [intros []|]. right. now exists s.
    + split.
      * intros [e|i]; [congruence|now apply N].
      * destruct A as [A|[rest A]]; [left|right; exists rest]; cbn; now f_equal.
Qed.

Lemma upToDot_length s : String.length (upToDot s) <= String.length s.
Proof.
  induction s as [|c s IH]; [cbn; lia|].
  cbn [upToDot]. destruct (c =? ".")%char; cbn in *; lia.
Qed.

Lemma upToDot_idem s : upToDot (upToDot s) = upToDot s.
Proof.
  induction s as [|c s IH]; [reflexivity|].
  cbn [upToDot]. destruct (c =? ".")%char eqn:E; [reflexivity|].
  cbn [upToDot]. now rewrite E, IH.
Qed.

Lemma upToDot_lowerBytes s : upToDot (lowerBytes s) = lowerBytes (upToDot s).
Proof.
  induction s as [|c s IH]; [reflexivity|].
  cbn [lowerBytes upToDot]. rewrite lowerByte_dot.
  destruct (c =? ".")%char; [reflexivity|]. cbn. now rewrite IH.
Qed.

Lemma upToDot_no_leading_space s :
  HasPrefix s " " = false -> HasPrefix (upToDot s) " " = false.
Proof.
  destruct s as [|c s]; [trivial|].
  rewrite HasPrefix_space. intros H. cbn [upToDot].
  destruct (c =? ".")%char; [reflexivity|]. now rewrite HasPrefix_space.
Qed.

Lemma isASCII_upToDot s : isASCII s = true -> isASCII (upToDot s) = true.
Proof.
  induction s as [|c s IH]; [trivial|].
  rewrite isASCII_cons. intros H. apply andb_prop in H. destruct H as [Hc Hs].
  cbn [upToDot]. destruct (c =? ".")%char; [reflexivity|].
  rewrite isASCII_cons, Hc. now apply IH.
Qed.

End StringFacts.

(** * Codec normalization *)

Section Normalize.
Import youtubedl.
Context {U : Unicode}.

Lemma lookup_canonical p :
  match mapLookup codecNameNormalizeMap p with Some n => n | None => p end
  = canonical p.
Proof.
  unfold canonical, codecNameNormalizeMap. cbn [mapLookup].
  rewrite (String.eqb_sym p "avc1"), (String.eqb_sym p "mp4v"),
    (String.eqb_sym p "mp4a"), (String.eqb_sym p "none").
  destruct ("none" =? p) eqn:E1.
  - apply String.eqb_eq in E1. subst p. reflexivity.
  - destruct ("avc1" =? p) eqn:E2; [reflexivity|].
    destruct ("mp4a" =? p) eqn:E3.
    + apply String.eqb_eq in E3. subst p. reflexivity.
    + destruct ("mp4v" =? p); reflexivity.
Qed.

Lemma normalizeCodecName_eq c :
  normalizeCodecName c = canonical (upToDot (ToLower (Trim c " "))).
Proof.
  unfold normalizeCodecName. rewrite hd_SplitN_dot. apply lookup_canonical.
Qed.

Lemma canonical_cases p :
  canonical p = p
  \/ (canonical p = "h264" /\ (p = "avc1" \/ p = "mp4v"))
  \/ (canonical p = "aac" /\ p = "mp4a")
  \/ (canonical p = "" /\ p = "none").
Proof.
  unfold canonical.
  destruct (p =? "avc1") eqn:E1; [apply String.eqb_eq in E1; auto 6|].
  destruct (p =? "mp4v") eqn:E2; [apply String.eqb_eq in E2; auto 6|].
  destruct (p =? "mp4a") eqn:E3; [apply String.eqb_eq in E3; auto 6|].
  destruct (p =? "none") eqn:E4; [apply String.eqb_eq in E4; auto 6|].
  cbn. auto.
Qed.

Lemma canonical_length p : String.length (canonical p) <= String.length p.
Proof.
  destruct (canonical_cases p) as [->|[[-> [->| ->]]|[[-> ->]|[-> ->]]]];
    cbn; lia.
Qed.

(** A tag that is already trimmed, lower-cased and free of dots is only
    looked up in the alias table. *)
Lemma normalized_fixed p :
  isASCII p = true -> lowerBytes p = p -> upToDot p = p ->
  HasPrefix p " " = false -> HasSuffix p " " = false ->
  normalizeCodecName p = canonical p.
Proof.
  intros A L D P S.
  rewrite normalizeCodecName_eq, Trim_id, ToLower_ascii, L, D by assumption.
  reflexivity.
Qed.

(** A tag with a trailing space gets shorter. *)
Lemma normalize_shrinks p :
  isASCII p = true -> HasSuffix p " " = true ->
  String.length (normalizeCodecName p) < String.length p.
Proof.
  intros A S. rewrite normalizeCodecName_eq.
  rewrite ToLower_ascii by now apply isASCII_Trim.
  pose proof (canonical_length (upToDot (lowerBytes (Trim p " ")))).
  pose proof (upToDot_length (lowerBytes (Trim p " "))).
  rewrite lowerBytes_length in *.
  pose proof (Trim_shorter p S). lia.
Qed.

Lemma normalize_idempotent_iff c :
  isASCII c = true ->
  normalizeCodecName (normalizeCodecName c) = normalizeCodecName c
  <-> HasSuffix (normalizeCodecName c) " " = false.
Proof.
  intros A.
  pose proof (isASCII_Trim c A) as AT.
  rewrite (normalizeCodecName_eq c), ToLower_ascii by exact AT.
  set (p := upToDot (lowerBytes (Trim c " "))).
  assert (Ap : isASCII p = true)
    by (apply isASCII_upToDot; now rewrite isASCII_lowerBytes).
  assert (Lp : lowerBytes p = p)
    by (unfold p; now rewrite <- upToDot_lowerBytes, lowerBytes_idem).
  assert (Dp : upToDot p = p) by apply upToDot_idem.
  assert (Pp : HasPrefix p " " = false).
  { apply upToDot_no_leading_space. rewrite HasPrefix_lowerBytes.
    destruct (Trim_split c) as [a [b [_ [P _]]]]. exact P. }
  destruct (canonical_cases p) as [E|[[E _]|[[E _]|[E _]]]];
    try (rewrite E; split; reflexivity).
  rewrite E. split.
  - intros I. destruct (HasSuffix p " ") eqn:S; [|reflexivity].
    pose proof (normalize_shrinks p Ap S). rewrite I in *. lia.
  - intros S. rewrite normalized_fixed by assumption. exact E.
Qed.

Lemma normalize_case_insensitive c c' :
  isASCII c = true -> isASCII c' = true -> lowerBytes c = lowerBytes c' ->
  normalizeCodecName c = normalizeCodecName c'.
Proof.
  intros A A' L. rewrite !normalizeCodecName_eq.
  rewrite !ToLower_ascii by now apply isASCII_Trim.
  now rewrite !lowerBytes_Trim, L.
Qed.

Lemma normalize_space_insensitive a b c :
  normalizeCodecName (spaces a ++ c ++ spaces b) = normalizeCodecName c.
Proof. rewrite !normalizeCodecName_eq. now rewrite Trim_spaces. Qed.

(** C3 (amended): for every input string [c], [normalizeCodecName] strips the
    surrounding space characters (the byte 0x20 and nothing else: [c] is
    [a] spaces, a text [t] that neither begins nor ends with a space, and
    [b] spaces), lower-cases [t], cuts it at its first "." and maps the
    result [p] through the alias table: "avc1" and "mp4v" to "h264", "mp4a"
    to "aac", "none" to the empty string, any other [p] to itself. *)
Theorem normalizeCodecName_pipeline (c : string) :
  exists (a b : nat) (t p : string),
    c = spaces a ++ t ++ spaces b
    /\ HasPrefix t " " = false /\ HasSuffix t " " = false
    /\ truncatedAtDot (ToLower t) p
    /\ normalizeCodecName c = canonical p.
Proof.
  destruct (Trim_split c) as [a [b [E [P S]]]].
  exists a, b, (Trim c " "), (upToDot (ToLower (Trim c " "))).
  repeat split; try assumption.
  - apply upToDot_spec.
  - apply upToDot_spec.
  - apply normalizeCodecName_eq.
Qed.

(** C4 (amended): on ASCII strings, normalizing twice gives the same as
    normalizing once exactly when the normalized name does not end in a
    space; normalization does not see the case of ASCII letters (two
    strings with the same lower-casing normalize alike) nor any number of
    surrounding space characters; "  AVC1.640028 " and "avc1" both
    normalize to "h264". *)
Theorem normalizeCodecName_idempotence (c c' : string) (a b : nat) :
  isASCII c = true -> isASCII c' = true ->
  (normalizeCodecName (normalizeCodecName c) = normalizeCodecName c
   <-> HasSuffix (normalizeCodecName c) " " = false)
  /\ (lowerBytes c = lowerBytes c' -> normalizeCodecName c = normalizeCodecName c')
  /\ normalizeCodecName (spaces a ++ c ++ spaces b) = normalizeCodecName c
  /\ normalizeCodecName "  AVC1.640028 " = "h264"
  /\ normalizeCodecName "avc1" = "h264".
Proof.
  intros A A'. split; [now apply normalize_idempotent_iff|].
  split; [now apply normalize_case_insensitive|].
  split; [apply normalize_space_insensitive|].
  split; reflexivity.
Qed.

End Normalize.

(** C3, as stated, fails: a tab is whitespace and is not stripped, so the tag
    behind it is not recognized. *)
Lemma normalizeCodecName_keeps_tab :
  ~ (forall (U : Unicode) (c : string),
        youtubedl.normalizeCodecName c = specNormalizeCodecName c).
Proof.
  intros H. specialize (H sampleUnicode (String "009" "avc1")).
  vm_compute in H. discriminate H.
Qed.

(** C4, as stated, fails: "avc1 .640028" normalizes to "avc1 " (the space
    before the dot is no longer at the end when the string is trimmed), and
    that normalizes to "h264". *)
Lemma normalizeCodecName_not_idempotent :
  ~ (forall (U : Unicode) (c : string),
        youtubedl.normalizeCodecName (youtubedl.normalizeCodecName c)
        = youtubedl.normalizeCodecName c).
Proof.
  intros H. specialize (H sampleUnicode "avc1 .640028").
  vm_compute in H. discriminate H.
Qed.

Lemma normalizeCodecName_idempotence_witness :
  (isASCII "AVC1.640028" = true /\ isASCII "avc1.640028" = true)
  /\ (youtubedl.normalizeCodecName (U := sampleUnicode)
        (youtubedl.normalizeCodecName (U := sampleUnicode) "AVC1.640028")
      = youtubedl.normalizeCodecName (U := sampleUnicode) "AVC1.640028"
      <-> HasSuffix (youtubedl.normalizeCodecName (U := sampleUnicode) "AVC1.640028") " "
          = false)
  /\ (lowerBytes "AVC1.640028" = lowerBytes "avc1.640028" ->
      youtubedl.normalizeCodecName (U := sampleUnicode) "AVC1.640028"
      = youtubedl.normalizeCodecName (U := sampleUnicode) "avc1.640028")
  /\ youtubedl.normalizeCodecName (U := sampleUnicode)
       (spaces 2 ++ "AVC1.640028" ++ spaces 1)
     = youtubedl.normalizeCodecName (U := sampleUnicode) "AVC1.640028"
  /\ youtubedl.normalizeCodecName (U := sampleUnicode) "  AVC1.640028 " = "h264"
  /\ youtubedl.normalizeCodecName (U := sampleUnicode) "avc1" = "h264".
Proof.
  split; [split; reflexivity|].
  apply (@normalizeCodecName_idempotence sampleUnicode
           "AVC1.640028" "avc1.640028" 2 1); reflexivity.
Defined.

(** * parseInfo *)

Section ParseInfo.
Import youtubedl.
Context {U : Unicode} {J : JSON}.

Lemma codecFromExt_table ext : codecFromExt ext = extensionTable (ToLower ext).
Proof.
  unfold codecFromExt, extensionTable.
  destruct (ToLower ext =? "mp3"); [reflexivity|].
  destruct (ToLower ext =? "mp4"); [reflexivity|].
  destruct (ToLower ext =? "flv"); reflexivity.
Qed.

(** The loop body leaves the decoded fields as they are. *)
Lemma normalizeFormat_raw f :
  Ext (normalizeFormat f) = Ext f
  /\ ACodec (normalizeFormat f) = ACodec f
  /\ VCodec (normalizeFormat f) = VCodec f.
Proof.
  unfold normalizeFormat. destruct (codecFromExt (Ext f)). cbn. repeat split.
Qed.

Lemma normalizeFormat_acodec f :
  NormACodec (normalizeFormat f) =
  if ACodec f =? "" then fst (extensionTable (ToLower (Ext f)))
  else normalizeCodecName (ACodec f).
Proof.
  unfold normalizeFormat. rewrite codecFromExt_table.
  destruct (extensionTable (ToLower (Ext f))). reflexivity.
Qed.

Lemma normalizeFormat_vcodec f :
  NormVCodec (normalizeFormat f) =
  if VCodec f =? "" then snd (extensionTable (ToLower (Ext f)))
  else normalizeCodecName (VCodec f).
Proof.
  unfold normalizeFormat. rewrite codecFromExt_table.
  destruct (extensionTable (ToLower (Ext f))). reflexivity.
Qed.

Lemma rangeFormats_Ok fs fs' :
  rangeFormats fs = Ok fs' ->
  forall x, In x fs' -> exists f, In (Some f) fs /\ x = Some (normalizeFormat f).
Proof.
  revert fs'. induction fs as [|[f|] fs IH]; intros fs' E x I.
  - inversion E. subst. destruct I.
  - cbn in E. destruct (rangeFormats fs) as [fs''| |]; try discriminate.
    inversion E. subst fs'. destruct I as [<-|I].
    + exists f. split; [now left|reflexivity].
    + destruct (IH _ eq_refl _ I) as [g [Ig Eg]].
      exists g. split; [now right|exact Eg].
  - discriminate E.
Qed.

Lemma parseInfo_Ok r i :
  parseInfo r = Ok i ->
  exists d, readerErr r = None /\ Unmarshal (readerData r) = Ok d
            /\ rangeFormats (Formats d) = Ok (Formats i)
            /\ rawJSON i = readerData r.
Proof.
  unfold parseInfo, ReadAll. destruct (readerErr r); [discriminate|].
  cbn. destruct (Unmarshal (readerData r)) as [d| |] eqn:Eu; try discriminate.
  cbn. destruct (rangeFormats (Formats d)) as [fs| |] eqn:Ef; try discriminate.
  cbn. intros E. inversion E. subst. cbn. exists d.
  repeat split; assumption || reflexivity.
Qed.

(** C5 (amended): for every format [f] of an [Info] that [parseInfo]
    returns, a normalized codec whose raw field is the empty string is the
    entry of the container-extension table for the lower-cased extension
    ("mp3" gives audio "mp3" and no video codec, "mp4" and "flv" give "aac"
    and "h264", anything else gives the empty string for both); a codec
    whose raw field is not empty is the normalization of that field, also
    when that is the empty string, as for "none". *)
Theorem parseInfo_codec_fallback (r : Reader) (i : Info) (f : Format) :
  parseInfo r = Ok i -> In (Some f) (Formats i) ->
  NormACodec f = (if ACodec f =? ""
                  then fst (extensionTable (ToLower (Ext f)))
                  else normalizeCodecName (ACodec f))
  /\ NormVCodec f = (if VCodec f =? ""
                     then snd (extensionTable (ToLower (Ext f)))
                     else normalizeCodecName (VCodec f))
  /\ NormACodec (normalizeFormat (sampleFormat "mp3" "none" "none")) = ""
  /\ NormVCodec (normalizeFormat (sampleFormat "mp4" "none" "none")) = "".
Proof.
  intros E I. destruct (parseInfo_Ok r E) as [d [_ [_ [R _]]]].
  destruct (rangeFormats_Ok _ R _ I) as [g [_ Eg]].
  inversion Eg. subst f.
  destruct (normalizeFormat_raw g) as [Ee [Ea Ev]].
  rewrite Ee, Ea, Ev, normalizeFormat_acodec, normalizeFormat_vcodec.
  repeat split; reflexivity.
Qed.

(** C6: an [Info] that [parseInfo] returns holds the bytes that were read,
    unchanged, as its [rawJSON], and parsing those bytes again returns the
    same [Info], derived fields included. *)
Theorem parseInfo_retains_raw (r : Reader) (i : Info) :
  parseInfo r = Ok i ->
  rawJSON i = readerData r
  /\ parseInfo (bytesReader (rawJSON i)) = Ok i.
Proof.
  intros E. destruct (parseInfo_Ok r E) as [d [Er [Eu [_ Eraw]]]].
  split; [exact Eraw|].
  rewrite <- E, Eraw. unfold parseInfo, ReadAll. cbn. now rewrite Er.
Qed.

End ParseInfo.

(** C5, as stated, fails: "MP4" is an extension other than "mp3", "mp4" and
    "flv", and it gives the audio codec "aac". *)
Lemma codecFromExt_ignores_case :
  ~ (forall (U : Unicode) (f : youtubedl.Format),
        youtubedl.ACodec f = "" ->
        youtubedl.NormACodec (youtubedl.normalizeFormat f)
        = fst (extensionTable (youtubedl.Ext f))).
Proof.
  intros H. specialize (H sampleUnicode (sampleFormat "MP4" "" "") eq_refl).
  vm_compute in H. discriminate H.
Qed.

Lemma parseInfo_codec_fallback_witness :
  (youtubedl.parseInfo (U := sampleUnicode) (J := constJSON sampleDecoded)
     (youtubedl.bytesReader sampleRaw) = Ok sampleParsed
   /\ In (Some (youtubedl.normalizeFormat (U := sampleUnicode)
                  (sampleFormat "MP4" "" "vp9")))
         (youtubedl.Formats sampleParsed))
  /\ youtubedl.NormACodec
       (youtubedl.normalizeFormat (U := sampleUnicode) (sampleFormat "MP4" "" "vp9"))
     = "aac"
  /\ youtubedl.NormVCodec
       (youtubedl.normalizeFormat (U := sampleUnicode) (sampleFormat "MP4" "" "vp9"))
     = "vp9".
Proof.
  split; [split; [reflexivity|left; reflexivity]|].
  pose proof (@parseInfo_codec_fallback sampleUnicode (constJSON sampleDecoded)
                (youtubedl.bytesReader sampleRaw) sampleParsed
                (youtubedl.normalizeFormat (U := sampleUnicode)
                   (sampleFormat "MP4" "" "vp9"))
                eq_refl (or_introl eq_refl)) as [Ha [Hv _]].
  split; [exact Ha|exact Hv].
Defined.

Lemma parseInfo_retains_raw_witness :
  youtubedl.parseInfo (U := sampleUnicode) (J := constJSON sampleDecoded)
    (youtubedl.bytesReader sampleRaw) = Ok sampleParsed
  /\ youtubedl.rawJSON sampleParsed = sampleRaw
  /\ youtubedl.parseInfo (U := sampleUnicode) (J := constJSON sampleDecoded)
       (youtubedl.bytesReader (youtubedl.rawJSON sampleParsed))
     = Ok sampleParsed.
Proof.
  split; [reflexivity|].
  apply (@parseInfo_retains_raw sampleUnicode (constJSON sampleDecoded)
           (youtubedl.bytesReader sampleRaw) sampleParsed).
  reflexivity.
Defined.

(** * The scanner *)

Section Scanner.
Import bufio.

Lemma scanFrom_line line rest acc n :
  ~ In x0a line ->
  (n + N.of_nat (length line) < MaxScanTokenSize)%N ->
  scanFrom (line ++ x0a :: rest) acc n
  = rev (dropCR (rev line ++ acc)) :: scanFrom rest [] 0%N.
Proof.
  revert acc n. induction line as [|b line IH]; intros acc n NL B.
  - reflexivity.
  - cbn [app scanFrom].
    destruct (Byte.eqb b x0a) eqn:E.
    + apply Byte.byte_dec_bl in E. subst b. exfalso. apply NL. now left.
    + assert (L : (MaxScanTokenSize <=? n + 1)%N = false).
      { apply N.leb_gt. cbn [length] in B. lia. }
      rewrite L, IH.
      * cbn [rev]. now rewrite <- app_assoc.
      * intros I. apply NL. now right.
      * cbn [length] in B. lia.
Qed.

(** A line shorter than the buffer, with its newline, is the next token
    (less a carriage return at its end), and the scan goes on behind it. *)
Lemma scanLines_line line rest :
  ~ In x0a line ->
  (N.of_nat (length line) < MaxScanTokenSize)%N ->
  scanLines (line ++ x0a :: rest) = rev (dropCR (rev line)) :: scanLines rest.
Proof.
  intros NL B. unfold scanLines. rewrite scanFrom_line by assumption.
  now rewrite app_nil_r.
Qed.

End Scanner.

(** * path.Ext *)

Section PathFacts.

Lemma string_of_snoc l c acc :
  string_of_list_ascii (l ++ [c]) ++ acc = string_of_list_ascii l ++ String c acc.
Proof. induction l as [|x l IH]; cbn; congruence. Qed.

(** What [Ext] finds is an end of the path. *)
Lemma extFrom_suffix l acc :
  path.extFrom l acc = "" \/
  exists pre, string_of_list_ascii (rev l) ++ acc = pre ++ path.extFrom l acc.
Proof.
  revert acc. induction l as [|c l IH]; intros acc; [now left|].
  cbn [path.extFrom rev]. destruct (c =? "/")%char; [now left|].
  destruct (c =? ".")%char.
  - right. exists (string_of_list_ascii (rev l)). apply string_of_snoc.
  - destruct (IH (String c acc)) as [E|[pre E]]; [now left|].
    right. exists pre. now rewrite string_of_snoc.
Qed.

Lemma Ext_json name : path.Ext name = ".json" -> HasSuffix name ".json" = true.
Proof.
  unfold path.Ext. intros E.
  destruct (extFrom_suffix (rev (list_ascii_of_string name)) "") as [Z|[pre S]].
  - rewrite E in Z. discriminate Z.
  - rewrite rev_involutive, string_of_list_ascii_of_string, append_empty_r, E in S.
    rewrite S. apply HasSuffix_append.
Qed.

End PathFacts.

(** * NewFromPath and NewFromURL *)

Section Tool.
Import youtubedl path youtubedl.
Context {U : Unicode} {J : JSON} {P : path.Paths}.

Lemma locate_no_json infoPath names infoJSONPath thumbnailPath :
  (forall name, In name names -> HasSuffix name ".json" = false) ->
  fst (locate infoPath names infoJSONPath thumbnailPath) = infoJSONPath.
Proof.
  revert thumbnailPath.
  induction names as [|name names IH]; intros t H; [reflexivity|].
  cbn [locate]. destruct (path.Ext name =? ".json") eqn:E.
  - apply String.eqb_eq, Ext_json in E. rewrite (H name) in E by now left.
    discriminate E.
  - destruct ((path.Ext name =? ".png") || (path.Ext name =? ".jpg")
              || (path.Ext name =? ".jpeg"));
      apply IH; intros n I; apply H; now right.
Qed.

Lemma ReadDir_Ok fs infoPath names :
  ReadDir fs infoPath = Ok names -> (infoPath =? "") = false.
Proof. unfold ReadDir. destruct (infoPath =? ""); [discriminate|reflexivity]. Qed.

(** C10: when the directory can be listed and no entry's name ends in
    ".json", [NewFromPath] returns an error, never an [Info].  The guard
    on [infoPath] does not fire (a directory that was listed has a name);
    the error is the one of opening the empty path. *)
Theorem NewFromPath_without_json (fs : FileSystem) (infoPath : string)
        (names : list string) :
  ReadDir fs infoPath = Ok names ->
  (forall name, In name names -> HasSuffix name ".json" = false) ->
  NewFromPath fs infoPath = Err (ENOENT "")
  /\ forall i, NewFromPath fs infoPath <> Ok i.
Proof.
  intros R H.
  assert (E : NewFromPath fs infoPath = Err (ENOENT "")).
  { unfold NewFromPath. rewrite R. cbn [bind].
    pose proof (locate_no_json infoPath names "" "" H) as L.
    destruct (locate infoPath names "" "") as [j t]. cbn in L. subst j.
    rewrite (ReadDir_Ok _ _ R). reflexivity. }
  split; [exact E|]. intros i. rewrite E. discriminate.
Qed.

Context {O : OS}.

Lemma scanStderr_first pre tok post :
  (forall t, In t pre -> HasPrefix (bufio.Text t) errorPrefix = false) ->
  HasPrefix (bufio.Text tok) errorPrefix = true ->
  scanStderr (pre ++ tok :: post)%list
  = Some (Error (dropBytes (String.length errorPrefix) (bufio.Text tok))).
Proof.
  intros Hpre Htok. induction pre as [|t pre IH]; cbn [app scanStderr].
  - now rewrite Htok.
  - rewrite (Hpre t) by now left. apply IH. intros t' I. apply Hpre. now right.
Qed.

Lemma scanStderr_none tokens :
  (forall t, In t tokens -> HasPrefix (bufio.Text t) errorPrefix = false) ->
  scanStderr tokens = None.
Proof.
  induction tokens as [|t tokens IH]; intros H; [reflexivity|].
  cbn [scanStderr]. rewrite (H t) by now left.
  apply IH. intros t' I. apply H. now right.
Qed.

(** C7 (amended): once the pipes are made and the tool is started,
    [NewFromURL] goes through the lines the scanner delivers from the
    diagnostic stream; at the first line that begins with "ERROR: " it
    returns the rest of that line, the prefix removed, as an [Error],
    whatever the exit of the tool would be; when no line begins with the
    prefix the scan gives no error and the result is that of waiting for
    the tool and reading its directory. *)
Theorem NewFromURL_error_line (url : string) :
  let p := Exec (command TempDir url) in
  stderrPipeErr p = None -> stdinPipeErr p = None -> startErr p = None ->
  (forall pre tok post,
      bufio.scanLines (stderrData p) = (pre ++ tok :: post)%list ->
      (forall t, In t pre -> HasPrefix (bufio.Text t) errorPrefix = false) ->
      HasPrefix (bufio.Text tok) errorPrefix = true ->
      exists rest, bufio.Text tok = "ERROR: " ++ rest
                   /\ NewFromURL url = Err (Error rest))
  /\ ((forall t, In t (bufio.scanLines (stderrData p)) ->
                 HasPrefix (bufio.Text t) errorPrefix = false) ->
      NewFromURL url = match waitErr p with
                       | Some e => Err e
                       | None => NewFromPath (filesAfter p) TempDir
                       end).
Proof.
  intros p E1 E2 E3. split.
  - intros pre tok post S Hpre Htok.
    exists (dropBytes (String.length errorPrefix) (bufio.Text tok)). split.
    + now apply HasPrefix_split.
    + unfold NewFromURL. fold p. rewrite E1, E2, E3, S.
      now rewrite scanStderr_first by assumption.
  - intros H. unfold NewFromURL. fold p. rewrite E1, E2, E3.
    now rewrite scanStderr_none by assumption.
Qed.

(** C9: the command [NewFromURL] builds has the same program, argument
    list and directory for every URL; the argument list is the fixed one
    below, and the URL is in the bytes written to the standard input, with
    a newline behind it.  So with a tool whose behaviour depends on
    program, arguments and directory only, the result does not depend on
    the URL. *)
Theorem NewFromURL_url_on_stdin_only (url1 url2 : string) :
  Args (command TempDir url1) =
    [ "youtube-dl"; "--no-call-home"; "--no-cache-dir"; "--skip-download";
      "--write-info-json"; "--write-thumbnail"; "--batch-file"; "-" ]
  /\ Args (command TempDir url1) = Args (command TempDir url2)
  /\ Path (command TempDir url1) = Path (command TempDir url2)
  /\ Dir (command TempDir url1) = Dir (command TempDir url2)
  /\ StdinData (command TempDir url1) = (list_byte_of_string url1 ++ [x0a])%list
  /\ ((forall c c', Path c = Path c' -> Args c = Args c' -> Dir c = Dir c' ->
                    Exec c = Exec c') ->
      NewFromURL url1 = NewFromURL url2).
Proof.
  repeat split.
  intros H. unfold NewFromURL.
  now rewrite (H (command TempDir url1) (command TempDir url2)).
Qed.

End Tool.

Lemma NewFromPath_without_json_witness :
  (youtubedl.ReadDir thumbnailOnlyFS sampleDir = Ok ["clip.jpg"]
   /\ HasSuffix "clip.jpg" ".json" = false)
  /\ youtubedl.NewFromPath (U := sampleUnicode) (J := constJSON sampleDecoded)
       (P := samplePaths) thumbnailOnlyFS sampleDir
     = Err (youtubedl.ENOENT "")
  /\ forall i,
       youtubedl.NewFromPath (U := sampleUnicode) (J := constJSON sampleDecoded)
         (P := samplePaths) thumbnailOnlyFS sampleDir <> Ok i.
Proof.
  split; [split; reflexivity|].
  apply (@NewFromPath_without_json sampleUnicode (constJSON sampleDecoded)
           samplePaths thumbnailOnlyFS sampleDir ["clip.jpg"]).
  - reflexivity.
  - intros name [<-|[]]. reflexivity.
Defined.

(** C7, as stated, fails: the line "ERROR: Unsupported URL" is not returned
    as it is; the error is "Unsupported URL". *)
Lemma NewFromURL_strips_prefix :
  bufio.scanLines
    (youtubedl.stderrData
       (youtubedl.Exec (OS := failingOS)
          (youtubedl.command sampleDir "https://example.com/v")))
  = [ list_byte_of_string "WARNING: unable to extract uploader";
      list_byte_of_string "ERROR: Unsupported URL" ]
  /\ youtubedl.NewFromURL (U := sampleUnicode) (J := constJSON sampleDecoded)
       (P := samplePaths) (O := failingOS) "https://example.com/v"
     = Err (Error "Unsupported URL")
  /\ youtubedl.NewFromURL (U := sampleUnicode) (J := constJSON sampleDecoded)
       (P := samplePaths) (O := failingOS) "https://example.com/v"
     <> Err (Error "ERROR: Unsupported URL").
Proof.
  split; [reflexivity|]. split; [reflexivity|]. vm_compute. discriminate.
Qed.

Lemma NewFromURL_error_line_witness :
  exists rest,
    bufio.Text (list_byte_of_string "ERROR: Unsupported URL") = "ERROR: " ++ rest
    /\ youtubedl.NewFromURL (U := sampleUnicode) (J := constJSON sampleDecoded)
         (P := samplePaths) (O := failingOS) "https://example.com/v"
       = Err (Error rest).
Proof.
  apply (proj1 (@NewFromURL_error_line sampleUnicode (constJSON sampleDecoded)
                  samplePaths failingOS "https://example.com/v"
                  eq_refl eq_refl eq_refl)
           [list_byte_of_string "WARNING: unable to extract uploader"]
           (list_byte_of_string "ERROR: Unsupported URL")
           []).
  - reflexivity.
  - intros t [<-|[]]. reflexivity.
  - reflexivity.
Defined.

Lemma NewFromURL_url_on_stdin_only_witness :
  youtubedl.NewFromURL (U := sampleUnicode) (J := constJSON sampleDecoded)
    (P := samplePaths) (O := failingOS) "https://example.com/v"
  = youtubedl.NewFromURL (U := sampleUnicode) (J := constJSON sampleDecoded)
      (P := samplePaths) (O := failingOS) "--exec=id".
Proof.
  apply (@NewFromURL_url_on_stdin_only sampleUnicode (constJSON sampleDecoded)
           samplePaths failingOS "https://example.com/v" "--exec=id").
  intros c c' _ _ _. reflexivity.
Defined.

(** * The negotiator *)

Section ListFacts.
Variable A : Type.
Variable p : A -> bool.

Lemma find_first (l : list A) (x : A) :
  find p l = Some x <->
  exists l1 l2, l = (l1 ++ x :: l2)%list /\ p x = true
                /\ forall y, In y l1 -> p y = false.
Proof.
  split.
  - induction l as [|a l IH]; [discriminate|].
    cbn [find]. destruct (p a) eqn:E.
    + intros H. inversion H. subst a. exists [], l. repeat split; auto.
      intros y [].
    + intros H. destruct (IH H) as [l1 [l2 [-> [Px N]]]].
      exists (a :: l1), l2. repeat split; auto.
      intros y [<-|I]; auto.
  - intros [l1 [l2 [-> [Px N]]]]. induction l1 as [|a l1 IH].
    + cbn. now rewrite Px.
    + cbn. rewrite (N a) by now left. apply IH. intros y I. apply N. now right.
Qed.

Lemma find_nothing (l : list A) :
  find p l = None <-> forall y, In y l -> p y = false.
Proof.
  split; [apply find_none|].
  induction l as [|a l IH]; [reflexivity|].
  intros H. cbn. rewrite (H a) by now left.
  apply IH. intros y I. apply H. now right.
Qed.

End ListFacts.

Section Negotiator.
Import ydls.
Context {Pr : Protocols}.

Lemma findPreferred_Some formats media codecs f :
  findPreferred formats media codecs = Some f
  <-> firstChoice formats media codecs f.
Proof.
  split.
  - induction codecs as [|c codecs IH]; [discriminate|].
    cbn [findPreferred].
    destruct (find (accepts media c) formats) as [g|] eqn:E.
    + intros H. inversion H. subst g.
      apply find_first in E. destruct E as [fs1 [fs2 [Ef [A N]]]].
      exists [], c, codecs, fs1, fs2. repeat split; auto. intros c' g [].
    + intros H.
      destruct (IH H) as [cs1 [c0 [cs2 [fs1 [fs2 [Ec [Ef [A [N1 N2]]]]]]]]].
      exists (c :: cs1), c0, cs2, fs1, fs2. repeat split; auto.
      * cbn. now f_equal.
      * intros c' g [<-|I] Ig; [|now apply N1].
        now apply (proj1 (find_nothing _ _) E).
  - intros [cs1 [c [cs2 [fs1 [fs2 [-> [Ef [A [N1 N2]]]]]]]]].
    induction cs1 as [|c0 cs1 IH]; cbn [app findPreferred].
    + assert (E : find (accepts media c) formats = Some f)
        by (apply find_first; exists fs1, fs2; auto).
      now rewrite E.
    + assert (E : find (accepts media c0) formats = None).
      { apply find_nothing. intros g Ig. apply N1; [now left|exact Ig]. }
      rewrite E. apply IH. intros c' g I Ig. apply N1; [now right|exact Ig].
Qed.

Lemma findPreferred_None formats media codecs :
  findPreferred formats media codecs = None <->
  forall c g, In c codecs -> In g formats -> accepts media c g = false.
Proof.
  induction codecs as [|c codecs IH]; cbn [findPreferred].
  - split; [intros _ c g []|reflexivity].
  - destruct (find (accepts media c) formats) as [f|] eqn:E.
    + split; [discriminate|]. intros H. exfalso.
      apply find_some in E. destruct E as [I A].
      rewrite (H c f) in A; [discriminate|now left|exact I].
    + rewrite IH. split.
      * intros H c' g [<-|I] Ig; [|now apply H].
        now apply (proj1 (find_nothing _ _) E).
      * intros H c' g I Ig. apply H; [now right|exact Ig].
Qed.

Context {U : Unicode}.

(** C1: with a preference list that is not empty, the negotiator returns
    [f] exactly when [f] is the first candidate, in candidate order,
    accepted for some preferred codec, no candidate at all being accepted
    for a codec before it in the list, so that the order of preference
    comes before the order of the candidates; it finds nothing exactly when
    no candidate is accepted for any preferred codec.  On the catalog of
    TestFindYDLFormat, "http" being usable, a request for audio "opus"
    returns format "5", also when "mp3", the codec of the first candidate,
    is preferred next. *)
Theorem findYDLFormat_preference_first
        (formats : list youtubedl.Format) (media : mediaType)
        (codecs : list string) :
  codecs <> [] ->
  (forall f, findYDLFormat formats media codecs = Some f
             <-> firstChoice formats media codecs f)
  /\ (findYDLFormat formats media codecs = None
      <-> forall c g, In c codecs -> In g formats -> accepts media c g = false)
  /\ (usable "http" = true ->
      option_map youtubedl.FormatID (findYDLFormat catalog MediaAudio ["opus"])
      = Some "5"
      /\ option_map youtubedl.FormatID
           (findYDLFormat catalog MediaAudio ["opus"; "mp3"])
         = Some "5").
Proof.
  intros NE.
  assert (E : findYDLFormat formats media codecs
              = findPreferred formats media codecs)
    by (destruct codecs; [congruence|reflexivity]).
  rewrite E. split; [intros f; apply findPreferred_Some|].
  split; [apply findPreferred_None|].
  intros Hu. unfold findYDLFormat, findPreferred, catalog, ydlFormats.
  cbn [map find]. unfold accepts. cbn. rewrite Hu. cbn. split; reflexivity.
Qed.

End Negotiator.

Lemma findYDLFormat_preference_first_witness :
  ["opus"; "mp3"] <> []
  /\ option_map youtubedl.FormatID
       (ydls.findYDLFormat (Pr := webProtocols)
          (ydls.catalog (U := sampleUnicode)) ydls.MediaAudio ["opus"; "mp3"])
     = Some "5".
Proof.
  split; [discriminate|].
  apply (@findYDLFormat_preference_first webProtocols sampleUnicode
           (ydls.catalog (U := sampleUnicode)) ydls.MediaAudio ["opus"; "mp3"]).
  - discriminate.
  - reflexivity.
Defined.

(** * time.Parse *)

Section TimeFacts.
Import time.

Lemma digit_not_sign c :
  isDigitByte c = true -> ((c =? "-") || (c =? "+"))%char = false.
Proof. each_byte c; cbv; congruence. Qed.

Lemma substring_0_0 s : String.substring 0 0 s = "".
Proof. destruct s; reflexivity. Qed.

Lemma FormatRFC1123Z_not_empty d : FormatRFC1123Z d <> "".
Proof. unfold FormatRFC1123Z. apply append_not_empty. discriminate. Qed.

End TimeFacts.

Arguments time.digit : simpl never.
Arguments time.isDigitByte : simpl never.

(** [time.Parse] with the layout "20060102" accepts the date tokens and
    nothing else. *)
Lemma Parse_dateOfToken s : time.Parse20060102 s = dateOfToken s.
Proof.
  unfold time.Parse20060102, dateOfToken.
  destruct s as [|y1 [|y2 [|y3 [|y4 s]]]]; try reflexivity.
  cbn [String.length Nat.ltb Nat.leb orb time.isDigit String.get negb
       String.substring dropBytes list_ascii_of_string].
  rewrite substring_0_0.
  destruct (time.isDigitByte y1) eqn:D1.
  2:{ cbn [negb].
      destruct s as [|m1 [|m2 [|d1 [|d2 [|x s]]]]]; try reflexivity.
      cbn [list_ascii_of_string forallb]. now rewrite D1. }
  cbn [negb]. unfold time.atoi. rewrite (digit_not_sign _ D1).
  cbn [time.leadingInt]. rewrite D1.
  destruct (time.isDigitByte y2) eqn:D2.
  2:{ cbn [String.eqb].
      destruct s as [|m1 [|m2 [|d1 [|d2 [|x s]]]]]; try reflexivity.
      cbn [list_ascii_of_string forallb]. rewrite D1, D2. reflexivity. }
  destruct (time.isDigitByte y3) eqn:D3.
  2:{ cbn [String.eqb].
      destruct s as [|m1 [|m2 [|d1 [|d2 [|x s]]]]]; try reflexivity.
      cbn [list_ascii_of_string forallb]. rewrite D1, D2, D3. reflexivity. }
  destruct (time.isDigitByte y4) eqn:D4.
  2:{ cbn [String.eqb].
      destruct s as [|m1 [|m2 [|d1 [|d2 [|x s]]]]]; try reflexivity.
      cbn [list_ascii_of_string forallb]. rewrite D1, D2, D3, D4. reflexivity. }
  cbn [String.eqb].
  destruct s as [|m1 [|m2 s]].
  - reflexivity.
  - unfold time.getnum. cbn [time.isDigit String.get].
    destruct (time.isDigitByte m1); reflexivity.
  - unfold time.getnum at 1. cbn [time.isDigit String.get].
    destruct (time.isDigitByte m1) eqn:M1.
    2:{ cbn [negb]. destruct s as [|d1 [|d2 [|x s]]]; try reflexivity.
        cbn [list_ascii_of_string forallb].
        rewrite D1, D2, D3, D4, M1. reflexivity. }
    destruct (time.isDigitByte m2) eqn:M2.
    2:{ cbn [negb]. destruct s as [|d1 [|d2 [|x s]]]; try reflexivity.
        cbn [list_ascii_of_string forallb].
        rewrite D1, D2, D3, D4, M1, M2. reflexivity. }
    cbn [negb].
    destruct s as [|d1 [|d2 s]].
    + destruct (_ || _); reflexivity.
    + unfold time.getnum. cbn [time.isDigit String.get].
      destruct (_ || _); [reflexivity|].
      destruct (time.isDigitByte d1); reflexivity.
    + unfold time.getnum. cbn [time.isDigit String.get].
      destruct (time.isDigitByte d1) eqn:E1.
      2:{ cbn [negb]. destruct (_ || _); destruct s; try reflexivity;
          cbn [list_ascii_of_string forallb];
          rewrite D1, D2, D3, D4, M1, M2, E1; reflexivity. }
      destruct (time.isDigitByte d2) eqn:E2.
      2:{ cbn [negb]. destruct (_ || _); destruct s; try reflexivity;
          cbn [list_ascii_of_string forallb];
          rewrite D1, D2, D3, D4, M1, M2, E1, E2; reflexivity. }
      cbn [negb].
      destruct s as [|x s].
      2:{ cbn [String.eqb negb]. destruct (_ || _); reflexivity. }
      cbn [String.eqb negb list_ascii_of_string forallb].
      rewrite D1, D2, D3, D4, M1, M2, E1, E2. cbn [andb].
      replace ((((0 * 10 + time.digit y1) * 10 + time.digit y2) * 10
                + time.digit y3) * 10 + time.digit y4)%Z
        with (1000 * time.digit y1 + 100 * time.digit y2
              + 10 * time.digit y3 + time.digit y4)%Z by lia.
      replace (time.digit m1 * 10 + time.digit m2)%Z
        with (10 * time.digit m1 + time.digit m2)%Z by lia.
      replace (time.digit d1 * 10 + time.digit d2)%Z
        with (10 * time.digit d1 + time.digit d2)%Z by lia.
      set (year := (1000 * time.digit y1 + 100 * time.digit y2
                    + 10 * time.digit y3 + time.digit y4)%Z).
      set (month := (10 * time.digit m1 + time.digit m2)%Z).
      set (day := (10 * time.digit d1 + time.digit d2)%Z).
      destruct (Z.leb_spec 1 month), (Z.leb_spec month 12),
        (Z.leb_spec month 0), (Z.ltb_spec 12 month); try lia; cbn [orb andb];
        try reflexivity.
      destruct (Z.leb_spec 1 day), (Z.leb_spec day (time.daysIn month year)),
        (Z.ltb_spec day 1), (Z.ltb_spec (time.daysIn month year) day);
        try lia; reflexivity.
Qed.

(** * Feed synthesis *)

Section Feed.
Import ydls.
Variable URL : Type.
Variable env : Env URL.

Lemma rangeEntries_map mk entries :
  rangeEntries mk entries = map mk (filter eligible entries).
Proof.
  induction entries as [|e entries IH]; [reflexivity|].
  cbn [rangeEntries filter]. unfold eligible at 1.
  destruct (nestedPlaylist e); cbn [negb map]; now rewrite IH.
Qed.

Lemma pubDateOf_spec entry :
  pubDateOf entry =
  match dateOfToken (UploadDate entry) with
  | Some d => time.FormatRFC1123Z d
  | None => ""
  end.
Proof.
  unfold pubDateOf. rewrite Parse_dateOfToken.
  destruct (UploadDate entry =? "") eqn:E; [|reflexivity].
  apply String.eqb_eq in E. now rewrite E.
Qed.

(** With its two format pointers set, [RSSFromYDLSInfo] returns a feed;
    its items are made, in order, from the entries that are not nested
    playlists. *)
Lemma RSSFromYDLSInfo_Ok options info linkIconRawURL format enclosureFormat :
  Format options = Some format ->
  Format (EnclosureDownloadOptions format) = Some enclosureFormat ->
  exists rss mk,
    RSSFromYDLSInfo env options info linkIconRawURL = Ok rss
    /\ ChannelItems (RSSChannel rss) = map mk (filter eligible (Entries info))
    /\ forall entry, ItemLink (mk entry) = WebpageURL entry
                     /\ PubDate (mk entry) = pubDateOf entry.
Proof.
  intros E1 E2. unfold RSSFromYDLSInfo. rewrite E1, E2.
  eexists. eexists. split; [reflexivity|]. cbn [RSSChannel ChannelItems].
  split; [apply rangeEntries_map|]. intros entry. split; reflexivity.
Qed.

(** C2 (amended): for every Metadata, feed synthesis emits exactly one
    item per child entry whose type tag is neither "playlist" nor
    "multi_video", in the order of the entries, and none for the others;
    the item limit of the options plays no part in it: with any other
    limit the feed is the same. *)
Theorem RSSFromYDLSInfo_items
        (options : DownloadOptions URL) (info : Info) (linkIconRawURL : string)
        (format enclosureFormat : YFormat URL) :
  Format options = Some format ->
  Format (EnclosureDownloadOptions format) = Some enclosureFormat ->
  exists rss mk,
    RSSFromYDLSInfo env options info linkIconRawURL = Ok rss
    /\ ChannelItems (RSSChannel rss) = map mk (filter eligible (Entries info))
    /\ (forall entry, ItemLink (mk entry) = WebpageURL entry)
    /\ length (ChannelItems (RSSChannel rss))
       = length (filter eligible (Entries info))
    /\ forall n, RSSFromYDLSInfo env (withItems n options) info linkIconRawURL
                 = Ok rss.
Proof.
  intros E1 E2.
  destruct (RSSFromYDLSInfo_Ok options info linkIconRawURL E1 E2)
    as [rss [mk [R [I L]]]].
  exists rss, mk. split; [exact R|]. split; [exact I|].
  split; [intros entry; apply L|].
  split; [now rewrite I, length_map|].
  intros n. rewrite <- R. reflexivity.
Qed.

(** C8: every item of the feed comes from an entry, and its publish date
    is not empty if and only if the entry's upload date is a non-empty
    token of eight digits naming a year, a month and a day of the
    calendar; the date is then that day in the RFC1123Z format, and it is
    empty otherwise.  With its format pointers set the synthesis returns a
    feed whatever the entries are.  "2024-13-99" is no date; "20240201" is
    Thursday, 1 February 2024. *)
Theorem RSSFromYDLSInfo_pubDate
        (options : DownloadOptions URL) (info : Info) (linkIconRawURL : string)
        (format enclosureFormat : YFormat URL) :
  Format options = Some format ->
  Format (EnclosureDownloadOptions format) = Some enclosureFormat ->
  exists rss,
    RSSFromYDLSInfo env options info linkIconRawURL = Ok rss
    /\ (forall item, In item (ChannelItems (RSSChannel rss)) ->
          exists entry,
            In entry (Entries info) /\ ItemLink item = WebpageURL entry
            /\ (PubDate item <> ""
                <-> UploadDate entry <> ""
                    /\ exists d, dateOfToken (UploadDate entry) = Some d)
            /\ (forall d, dateOfToken (UploadDate entry) = Some d ->
                          PubDate item = time.FormatRFC1123Z d)
            /\ (dateOfToken (UploadDate entry) = None -> PubDate item = ""))
    /\ dateOfToken "2024-13-99" = None
    /\ option_map time.FormatRFC1123Z (dateOfToken "20240201")
       = Some "Thu, 01 Feb 2024 00:00:00 +0000".
Proof.
  intros E1 E2.
  destruct (RSSFromYDLSInfo_Ok options info linkIconRawURL E1 E2)
    as [rss [mk [R [I L]]]].
  exists rss. split; [exact R|]. split; [|split; reflexivity].
  intros item Hin. rewrite I in Hin. apply in_map_iff in Hin.
  destruct Hin as [entry [<- Hf]]. apply filter_In in Hf. destruct Hf as [He _].
  exists entry. destruct (L entry) as [Ll Lp].
  split; [exact He|]. split; [exact Ll|].
  rewrite Lp, pubDateOf_spec.
  destruct (dateOfToken (UploadDate entry)) as [d|] eqn:D.
  - repeat split.
    + intros Hd. rewrite Hd in D. discriminate D.
    + now exists d.
    + intros _. apply FormatRFC1123Z_not_empty.
    + intros d' Ed. now inversion Ed.
    + discriminate.
  - repeat split; try congruence.
    intros [_ [d Ed]]. discriminate Ed.
Qed.

End Feed.

(** C2, as stated, fails: with an item limit of 1 the feed of a playlist
    with two plain tracks has two items. *)
Lemma RSSFromYDLSInfo_ignores_item_limit :
  ~ (forall (URL : Type) (env : ydls.Env URL) (options : ydls.DownloadOptions URL)
            (info : ydls.Info) (linkIconRawURL : string) (rss : ydls.RSS),
        ydls.RSSFromYDLSInfo env options info linkIconRawURL = Ok rss ->
        (0 < ydls.Items options)%Z ->
        (Z.of_nat (length (ydls.ChannelItems (ydls.RSSChannel rss)))
         <= ydls.Items options)%Z).
Proof.
  intros H.
  specialize (H string textEnv (rssOptions 1) playlist "" _ eq_refl).
  vm_compute in H. apply H; reflexivity.
Qed.

Lemma RSSFromYDLSInfo_items_witness :
  exists rss,
    ydls.RSSFromYDLSInfo textEnv (rssOptions 1) playlist "" = Ok rss
    /\ map ydls.ItemLink (ydls.ChannelItems (ydls.RSSChannel rss))
       = ["https://example.com/1"; "https://example.com/3"]
    /\ ydls.RSSFromYDLSInfo textEnv (rssOptions 2) playlist "" = Ok rss.
Proof.
  destruct (@RSSFromYDLSInfo_items string textEnv (rssOptions 1) playlist ""
              rssFormat mp3Format eq_refl eq_refl)
    as [rss [mk [R [I [L [_ W]]]]]].
  exists rss. split; [exact R|]. split; [|exact (W 2%Z)].
  rewrite I. cbn [map filter playlist ydls.Entries eligible].
  cbn. now rewrite !L.
Defined.

Lemma RSSFromYDLSInfo_pubDate_witness :
  exists rss,
    ydls.RSSFromYDLSInfo textEnv (rssOptions 2) playlist "" = Ok rss
    /\ map ydls.PubDate (ydls.ChannelItems (ydls.RSSChannel rss))
       = ["Thu, 01 Feb 2024 00:00:00 +0000"; ""].
Proof.
  destruct (@RSSFromYDLSInfo_pubDate string textEnv (rssOptions 2) playlist ""
              rssFormat mp3Format eq_refl eq_refl)
    as [rss [R _]].
  exists rss. split; [exact R|].
  vm_compute in R. inversion R. reflexivity.
Defined.

(** * Further properties *)

(** ** Codec normalization *)

Section NormalizeMore.
Import youtubedl.
Context {U : Unicode}.

Lemma canonical_not_alias p :
  canonical p <> "none" /\ canonical p <> "avc1"
  /\ canonical p <> "mp4a" /\ canonical p <> "mp4v".
Proof.
  unfold canonical.
  destruct (p =? "avc1") eqn:E1; [cbn; repeat split; discriminate|].
  destruct (p =? "mp4v") eqn:E2; [cbn; repeat split; discriminate|].
  destruct (p =? "mp4a") eqn:E3; [cbn; repeat split; discriminate|].
  destruct (p =? "none") eqn:E4; [cbn; repeat split; discriminate|].
  cbn. apply String.eqb_neq in E1, E2, E3, E4. auto.
Qed.

Lemma canonical_noDot p : noDot p -> noDot (canonical p).
Proof.
  intros N.
  destruct (canonical_cases p) as [->|[[-> _]|[[-> _]|[-> _]]]]; [exact N| | |];
    cbn; intros H; repeat (destruct H as [H|H]; [discriminate H|]); exact H.
Qed.

(** X1: whatever the input, a normalized codec name holds no "." and is
    none of the tags of the alias table ("none", "avc1", "mp4a", "mp4v"). *)
Theorem normalizeCodecName_range (c : string) :
  noDot (normalizeCodecName c)
  /\ normalizeCodecName c <> "none" /\ normalizeCodecName c <> "avc1"
  /\ normalizeCodecName c <> "mp4a" /\ normalizeCodecName c <> "mp4v".
Proof.
  rewrite normalizeCodecName_eq. split.
  - apply canonical_noDot, upToDot_spec.
  - apply canonical_not_alias.
Qed.

Lemma isASCII_app a b : isASCII (a ++ b) = isASCII a && isASCII b.
Proof.
  induction a as [|c a IH]; [reflexivity|].
  cbn [append]. now rewrite !isASCII_cons, IH, andb_assoc.
Qed.

Lemma lowerBytes_app a b : lowerBytes (a ++ b) = lowerBytes a ++ lowerBytes b.
Proof. induction a as [|c a IH]; cbn; congruence. Qed.

Lemma upToDot_app_dot a r : upToDot (a ++ String "." r) = upToDot a.
Proof.
  induction a as [|c a IH]; [reflexivity|].
  cbn [append upToDot]. now rewrite IH.
Qed.

Lemma TrimRight_dot x : TrimRight (String "." x) " " = String "." (TrimRight x " ").
Proof. rewrite TrimRight_cons. now destruct (TrimRight x " "). Qed.

Lemma TrimRight_app_dot c x :
  TrimRight (c ++ String "." x) " " = c ++ String "." (TrimRight x " ").
Proof.
  induction c as [|d c IH]; [apply TrimRight_dot|].
  cbn [append]. rewrite TrimRight_cons, IH.
  now destruct c.
Qed.

Lemma TrimLeft_app_dot c r :
  TrimLeft (c ++ String "." r) " " = TrimLeft c " " ++ String "." r.
Proof.
  induction c as [|d c IH]; [reflexivity|].
  cbn [append]. rewrite !TrimLeft_cons.
  destruct (d =? " ")%char; [exact IH|reflexivity].
Qed.

Lemma normalize_before_dot c x :
  isASCII c = true -> isASCII x = true ->
  normalizeCodecName (c ++ String "." x)
  = canonical (upToDot (lowerBytes (TrimLeft c " "))).
Proof.
  intros Ac Ax. rewrite normalizeCodecName_eq.
  unfold Trim. rewrite TrimRight_app_dot, TrimLeft_app_dot.
  rewrite ToLower_ascii.
  - rewrite lowerBytes_app. cbn [lowerBytes].
    change (lowerByte ".") with "."%char. now rewrite upToDot_app_dot.
  - rewrite isASCII_app, isASCII_TrimLeft by exact Ac.
    cbn. now apply isASCII_TrimRight.
Qed.

(** X2: what follows the first "." of an ASCII codec string plays no part:
    two strings that agree up to a dot normalize alike. *)
Theorem normalizeCodecName_suffix_discarded (c x y : string) :
  isASCII c = true -> isASCII x = true -> isASCII y = true ->
  normalizeCodecName (c ++ String "." x) = normalizeCodecName (c ++ String "." y).
Proof.
  intros Ac Ax Ay. now rewrite !normalize_before_dot.
Qed.

End NormalizeMore.

Lemma normalizeCodecName_suffix_discarded_witness :
  (isASCII " AVC1" = true /\ isASCII "640028 " = true /\ isASCII "4d401e" = true)
  /\ youtubedl.normalizeCodecName (U := sampleUnicode) (" AVC1" ++ String "." "640028 ")
     = youtubedl.normalizeCodecName (U := sampleUnicode) (" AVC1" ++ String "." "4d401e").
Proof.
  split; [repeat split|].
  apply (@normalizeCodecName_suffix_discarded sampleUnicode " AVC1" "640028 " "4d401e");
    reflexivity.
Defined.

(** ** parseInfo *)

Section ParseInfoMore.
Import youtubedl.
Context {U : Unicode} {J : JSON}.

Lemma normalizeFormat_eraseNorm f : normalizeFormat (eraseNorm f) = normalizeFormat f.
Proof. reflexivity. Qed.

Lemma rangeFormats_eraseNorm fs :
  rangeFormats (map (option_map eraseNorm) fs) = rangeFormats fs.
Proof.
  induction fs as [|[f|] fs IH]; [reflexivity| |reflexivity].
  cbn [map option_map rangeFormats]. now rewrite IH, normalizeFormat_eraseNorm.
Qed.

(** X3: the derived fields are always computed afresh: whatever the JSON
    says about NormBR, NormACodec and NormVCodec is overwritten, so a
    decoder that drops these three fields gives the same result. *)
Theorem parseInfo_recomputes_derived (r : Reader) :
  parseInfo (J := forgetNorm J) r = parseInfo (J := J) r.
Proof.
  unfold parseInfo. destruct (ReadAll r) as [raw| |]; [|reflexivity|reflexivity].
  cbn [bind forgetNorm Unmarshal].
  destruct (Unmarshal raw) as [d| |]; [|reflexivity|reflexivity].
  cbn [bind eraseNormInfo Formats]. rewrite rangeFormats_eraseNorm.
  reflexivity.
Qed.

Lemma rangeFormats_nil fs : In None fs -> rangeFormats fs = Panic.
Proof.
  induction fs as [|[f|] fs IH]; intros I.
  - destruct I.
  - destruct I as [E|I]; [discriminate|].
    cbn [rangeFormats]. now rewrite IH.
  - reflexivity.
Qed.

(** X4: a nil element in the decoded format list (a JSON null among the
    formats) makes [parseInfo] panic: it is neither an error nor skipped. *)
Theorem parseInfo_nil_format (r : Reader) (d : Info) :
  readerErr r = None -> Unmarshal (readerData r) = Ok d ->
  In None (Formats d) ->
  parseInfo r = Panic.
Proof.
  intros Er Eu I. unfold parseInfo, ReadAll. rewrite Er. cbn [bind].
  rewrite Eu. cbn [bind]. now rewrite rangeFormats_nil.
Qed.

Lemma rangeFormats_map fs fs' :
  rangeFormats fs = Ok fs' ->
  exists gs, fs = map Some gs /\ fs' = map (fun g => Some (normalizeFormat g)) gs.
Proof.
  revert fs'. induction fs as [|[f|] fs IH]; intros fs' E.
  - inversion E. now exists [].
  - cbn in E. destruct (rangeFormats fs) as [fs''| |]; try discriminate.
    inversion E. destruct (IH _ eq_refl) as [gs [-> ->]].
    now exists (f :: gs).
  - discriminate E.
Qed.

(** X5: an [Info] that [parseInfo] returns has the decoded fields as the
    decoder gave them and no thumbnail bytes; its formats are the decoded
    ones, as many and in the same order, none of them nil, each with its
    decoded fields unchanged and with a normalized bitrate that is the
    total bitrate when that is not zero and the sum of the audio and video
    bitrates otherwise. *)
Theorem parseInfo_formats (r : Reader) (i : Info) :
  parseInfo r = Ok i ->
  exists d gs,
    Unmarshal (readerData r) = Ok d
    /\ Formats d = map Some gs
    /\ Formats i = map (fun g => Some (normalizeFormat g)) gs
    /\ (Title i = Title d /\ Artist i = Artist d /\ Uploader i = Uploader d
        /\ Creator i = Creator d /\ Description i = Description d
        /\ Duration i = Duration d /\ Thumbnail i = Thumbnail d)
    /\ ThumbnailBytes i = []
    /\ forall g, In g gs ->
         FormatID (normalizeFormat g) = FormatID g
         /\ Protocol (normalizeFormat g) = Protocol g
         /\ TBR (normalizeFormat g) = TBR g
         /\ ABR (normalizeFormat g) = ABR g
         /\ VBR (normalizeFormat g) = VBR g
         /\ NormBR (normalizeFormat g)
            = if PrimFloat.eqb (TBR g) 0 then PrimFloat.add (ABR g) (VBR g)
              else TBR g.
Proof.
  unfold parseInfo, ReadAll. destruct (readerErr r); [discriminate|].
  cbn [bind]. destruct (Unmarshal (readerData r)) as [d| |] eqn:Eu; try discriminate.
  cbn [bind]. destruct (rangeFormats (Formats d)) as [fs| |] eqn:Ef; try discriminate.
  cbn [bind]. intros E. inversion E. subst i. clear E.
  destruct (rangeFormats_map _ Ef) as [gs [Ed Efs]].
  exists d, gs. cbn. repeat split; try assumption.
  all: unfold normalizeFormat; destruct (codecFromExt (Ext g)); cbn; try reflexivity.
  now destruct (PrimFloat.eqb (TBR g) 0).
Qed.

End ParseInfoMore.

Lemma parseInfo_nil_format_witness :
  (youtubedl.readerErr (youtubedl.bytesReader sampleRaw) = None
   /\ In None (youtubedl.Formats (sampleInfo [Some (sampleFormat "mp4" "" ""); None])))
  /\ youtubedl.parseInfo (U := sampleUnicode)
       (J := constJSON (sampleInfo [Some (sampleFormat "mp4" "" ""); None]))
       (youtubedl.bytesReader sampleRaw)
     = Panic.
Proof.
  split; [split; [reflexivity|right; left; reflexivity]|].
  apply (@parseInfo_nil_format sampleUnicode
           (constJSON (sampleInfo [Some (sampleFormat "mp4" "" ""); None]))
           (youtubedl.bytesReader sampleRaw)
           (sampleInfo [Some (sampleFormat "mp4" "" ""); None])).
  - reflexivity.
  - reflexivity.
  - right; left; reflexivity.
Defined.

Lemma parseInfo_formats_witness :
  youtubedl.parseInfo (U := sampleUnicode) (J := constJSON sampleDecoded)
    (youtubedl.bytesReader sampleRaw) = Ok sampleParsed
  /\ exists d gs,
       youtubedl.Formats d = map Some gs
       /\ youtubedl.Formats sampleParsed
          = map (fun g => Some (youtubedl.normalizeFormat (U := sampleUnicode) g)) gs.
Proof.
  split; [reflexivity|].
  destruct (@parseInfo_formats sampleUnicode (constJSON sampleDecoded)
              (youtubedl.bytesReader sampleRaw) sampleParsed eq_refl)
    as [d [gs [_ [Ed [Ei _]]]]].
  exists d, gs. split; [exact Ed|exact Ei].
Defined.

(** ** path.Ext and name suffixes *)

Section ExtMore.

Lemma HasSuffix_split s r :
  HasSuffix s r = true -> exists pre, s = pre ++ r.
Proof.
  induction s as [|c s IH]; cbn [HasSuffix].
  - rewrite orb_false_r. intros E. apply String.eqb_eq in E. now exists "".
  - intros H. apply orb_prop in H. destruct H as [E|H].
    + apply String.eqb_eq in E. now exists "".
    + destruct (IH H) as [pre ->]. now exists (String c pre).
Qed.

Lemma list_ascii_app a b :
  list_ascii_of_string (a ++ b) = (list_ascii_of_string a ++ list_ascii_of_string b)%list.
Proof. induction a as [|c a IH]; cbn; congruence. Qed.

Lemma extFrom_plain l rest acc :
  plainBytes (string_of_list_ascii (rev l)) = true ->
  path.extFrom (l ++ "."%char :: rest) acc
  = String "." (string_of_list_ascii (rev l) ++ acc).
Proof.
  revert acc. induction l as [|c l IH]; intros acc Pl; [reflexivity|].
  cbn [rev] in Pl.
  assert (Pc : (c =? "/")%char = false /\ (c =? ".")%char = false
               /\ plainBytes (string_of_list_ascii (rev l)) = true).
  { clear IH. revert Pl. generalize (rev l). intros m.
    induction m as [|d m IHm]; cbn.
    - destruct (c =? "/")%char, (c =? ".")%char; cbn; auto; discriminate.
    - intros H. apply andb_prop in H. destruct H as [Hd Hm].
      destruct (IHm Hm) as [A [B C]]. rewrite Hd, C. auto. }
  destruct Pc as [A [B C]].
  cbn [app path.extFrom]. rewrite A, B, IH by exact C.
  cbn [rev]. now rewrite string_of_snoc.
Qed.

(** For an extension of plain bytes behind its dot, [path.Ext] gives it
    exactly for the names that end in it. *)
Lemma Ext_eqb_suffix name x :
  plainBytes x = true ->
  (path.Ext name =? String "." x) = HasSuffix name (String "." x).
Proof.
  intros Px. destruct (HasSuffix name (String "." x)) eqn:S.
  - apply HasSuffix_split in S. destruct S as [pre ->].
    apply String.eqb_eq. unfold path.Ext.
    rewrite list_ascii_app. cbn [list_ascii_of_string].
    rewrite rev_app_distr. cbn [rev]. rewrite <- app_assoc. cbn [app].
    rewrite extFrom_plain.
    + now rewrite rev_involutive, string_of_list_ascii_of_string, append_empty_r.
    + now rewrite rev_involutive, string_of_list_ascii_of_string.
  - apply String.eqb_neq. intros E.
    unfold path.Ext in E.
    destruct (extFrom_suffix (rev (list_ascii_of_string name)) "") as [Z|[pre H]].
    + rewrite E in Z. discriminate Z.
    + rewrite rev_involutive, string_of_list_ascii_of_string, append_empty_r, E in H.
      rewrite H, HasSuffix_append in S. discriminate S.
Qed.

End ExtMore.

(** ** NewFromPath *)

Section NewFromPathMore.
Import youtubedl.
Context {U : Unicode} {J : JSON} {P : path.Paths}.

Lemma image_ext name :
  (path.Ext name =? ".png") || (path.Ext name =? ".jpg") || (path.Ext name =? ".jpeg")
  = isImageName name.
Proof. unfold isImageName. now rewrite !Ext_eqb_suffix. Qed.

Lemma json_not_image name : isJSONName name = true -> isImageName name = false.
Proof.
  unfold isJSONName. rewrite <- image_ext, <- (@Ext_eqb_suffix name "json") by reflexivity.
  intros E. apply String.eqb_eq in E. now rewrite E.
Qed.

(** The loop keeps, of each kind, the last entry of the listing. *)
Lemma locate_lastWith infoPath names j t :
  locate infoPath names j t
  = (match lastWith isJSONName names with
     | Some n => path.Join infoPath n
     | None => j
     end,
     match lastWith isImageName names with
     | Some n => path.Join infoPath n
     | None => t
     end).
Proof.
  revert j t. induction names as [|n names IH]; intros j t; [reflexivity|].
  cbn [locate lastWith]. rewrite image_ext, (@Ext_eqb_suffix n "json") by reflexivity.
  fold (isJSONName n).
  destruct (isJSONName n) eqn:Ej.
  - rewrite IH, (json_not_image _ Ej).
    now destruct (lastWith isJSONName names), (lastWith isImageName names).
  - destruct (isImageName n); rewrite IH;
      now destruct (lastWith isJSONName names), (lastWith isImageName names).
Qed.

Lemma lastWith_Some p names n :
  lastWith p names = Some n ->
  exists pre post, names = (pre ++ n :: post)%list /\ p n = true
                   /\ forall m, In m post -> p m = false.
Proof.
  revert n. induction names as [|a names IH]; intros n; [discriminate|].
  cbn [lastWith]. destruct (lastWith p names) as [m|] eqn:E.
  - intros H. inversion H. subst m.
    destruct (IH n eq_refl) as [pre [post [-> [Pn N]]]].
    now exists (a :: pre), post.
  - destruct (p a) eqn:Pa; [|discriminate].
    intros H. inversion H. subst a. exists [], names. repeat split; auto.
    clear -E. induction names as [|b names IH]; intros m I; [destruct I|].
    cbn [lastWith] in E. destruct (lastWith p names); [discriminate|].
    destruct (p b) eqn:Pb; [discriminate|].
    destruct I as [<-|I]; [exact Pb|now apply IH].
Qed.

Lemma NewFromPath_unfold fs infoPath names :
  ReadDir fs infoPath = Ok names ->
  NewFromPath fs infoPath =
  (file <- Open fs (match lastWith isJSONName names with
                    | Some n => path.Join infoPath n
                    | None => ""
                    end) ;;
   i <- parseInfo file ;;
   match lastWith isImageName names with
   | Some n =>
       if negb (path.Join infoPath n =? "")
       then match ReadFile fs (path.Join infoPath n) with
            | Ok b => Ok (withThumbnail i b)
            | Err _ => Err (Errorf "failed to read thumbnail")
            | Panic => Panic
            end
       else Ok i
   | None => Ok i
   end).
Proof.
  intros R. unfold NewFromPath. rewrite R. cbn [bind].
  rewrite locate_lastWith, (ReadDir_Ok _ _ R).
  destruct (lastWith isImageName names); reflexivity.
Qed.

(** X6: when [NewFromPath] returns an [Info], the directory listing has an
    entry whose name ends in ".json"; the file read is the last such
    entry of the listing, and the [Info] holds that file's bytes as its
    raw JSON. *)
Theorem NewFromPath_reads_last_json (fs : FileSystem) (infoPath : string)
        (i : Info) :
  NewFromPath fs infoPath = Ok i ->
  exists pre name post file,
    ReadDir fs infoPath = Ok (pre ++ name :: post)%list
    /\ HasSuffix name ".json" = true
    /\ (forall m, In m post -> HasSuffix m ".json" = false)
    /\ Open fs (path.Join infoPath name) = Ok file
    /\ rawJSON i = readerData file.
Proof.
  intros H. destruct (ReadDir fs infoPath) as [names| |] eqn:R;
    try (unfold NewFromPath in H; rewrite R in H; discriminate H).
  rewrite (NewFromPath_unfold _ _ R) in H.
  destruct (lastWith isJSONName names) as [n|] eqn:L.
  2:{ unfold Open in H. cbn in H. discriminate H. }
  destruct (lastWith_Some _ _ L) as [pre [post [-> [Pn N]]]].
  destruct (Open fs (path.Join infoPath n)) as [file| |] eqn:O; try discriminate H.
  cbn [bind] in H.
  destruct (parseInfo file) as [i0| |] eqn:Pi; try discriminate H.
  cbn [bind] in H.
  exists pre, n, post, file. repeat split; try assumption.
  destruct (parseInfo_Ok file Pi) as [d [_ [_ [_ Raw]]]].
  destruct (lastWith isImageName (pre ++ n :: post)) as [t|].
  - destruct (negb (path.Join infoPath t =? "")).
    + destruct (ReadFile fs (path.Join infoPath t)); inversion H.
      cbn. exact Raw.
    + inversion H. subst. exact Raw.
  - inversion H. subst. exact Raw.
Qed.

(** X7: with the JSON file read and parsed, the thumbnail decides: with no
    entry ending in ".png", ".jpg" or ".jpeg" the parsed [Info] is
    returned as it is; otherwise the last such entry is read, its bytes
    become the thumbnail bytes, and any failure to read it is reported as
    "failed to read thumbnail", the cause being dropped. *)
Theorem NewFromPath_thumbnail (fs : FileSystem) (infoPath : string)
        (names : list string) (json : string) (file : Reader) (i : Info) :
  ReadDir fs infoPath = Ok names ->
  lastWith isJSONName names = Some json ->
  Open fs (path.Join infoPath json) = Ok file ->
  parseInfo file = Ok i ->
  (lastWith isImageName names = None -> NewFromPath fs infoPath = Ok i)
  /\ (forall image, lastWith isImageName names = Some image ->
                    path.Join infoPath image <> "" ->
        (forall b, ReadFile fs (path.Join infoPath image) = Ok b ->
                   NewFromPath fs infoPath = Ok (withThumbnail i b))
        /\ (forall e, ReadFile fs (path.Join infoPath image) = Err e ->
                      NewFromPath fs infoPath
                      = Err (Errorf "failed to read thumbnail"))).
Proof.
  intros R Lj O Pi. rewrite (NewFromPath_unfold _ _ R), Lj, O. cbn [bind].
  rewrite Pi. cbn [bind]. split.
  - now intros ->.
  - intros image -> NE. apply String.eqb_neq in NE. rewrite NE. cbn [negb].
    split; intros x ->; reflexivity.
Qed.

End NewFromPathMore.

Lemma NewFromPath_reads_last_json_witness :
  youtubedl.NewFromPath (U := sampleUnicode) (J := constJSON sampleDecoded)
    (P := samplePaths) twoJSONFS sampleDir
  = Ok (youtubedl.withThumbnail sampleParsed [x89; x50])
  /\ exists pre name post file,
       youtubedl.ReadDir twoJSONFS sampleDir = Ok (pre ++ name :: post)%list
       /\ HasSuffix name ".json" = true
       /\ (forall m, In m post -> HasSuffix m ".json" = false)
       /\ youtubedl.Open twoJSONFS (path.Join (Paths := samplePaths) sampleDir name)
          = Ok file
       /\ youtubedl.rawJSON (youtubedl.withThumbnail sampleParsed [x89; x50])
          = youtubedl.readerData file.
Proof.
  split; [reflexivity|].
  apply (@NewFromPath_reads_last_json sampleUnicode (constJSON sampleDecoded)
           samplePaths twoJSONFS sampleDir
           (youtubedl.withThumbnail sampleParsed [x89; x50])).
  reflexivity.
Defined.

Lemma NewFromPath_thumbnail_witness :
  youtubedl.NewFromPath (U := sampleUnicode) (J := constJSON sampleDecoded)
    (P := samplePaths) brokenThumbnailFS sampleDir
  = Err (Errorf "failed to read thumbnail").
Proof.
  refine (proj2 (proj2 (@NewFromPath_thumbnail sampleUnicode (constJSON sampleDecoded)
                    samplePaths brokenThumbnailFS sampleDir
                    ["b.info.json"; "b.png"] "b.info.json"
                    (youtubedl.bytesReader sampleRaw) sampleParsed
                    eq_refl eq_refl eq_refl eq_refl)
                  "b.png" eq_refl _)
            (SysError "input/output error") eq_refl).
  discriminate.
Defined.

(** ** NewFromURL and the diagnostic stream *)

Section ScannerMore.
Import bufio.

Lemma list_byte_app a b :
  list_byte_of_string (a ++ b) = (list_byte_of_string a ++ list_byte_of_string b)%list.
Proof.
  unfold list_byte_of_string. now rewrite list_ascii_app, map_app.
Qed.

Lemma list_byte_length s : length (list_byte_of_string s) = String.length s.
Proof.
  unfold list_byte_of_string. rewrite length_map.
  induction s as [|c s IH]; cbn; congruence.
Qed.

Lemma notLF_not_In l : forallb notLF l = true -> ~ In x0a l.
Proof.
  intros F I. rewrite forallb_forall in F. specialize (F _ I). discriminate F.
Qed.

Lemma notEOL_notLF l : forallb notEOL l = true -> forallb notLF l = true.
Proof.
  rewrite !forallb_forall. intros F b I. specialize (F b I).
  unfold notEOL in F. now apply andb_prop in F.
Qed.

Lemma dropCR_notEOL l : forallb notEOL l = true -> dropCR (rev l) = rev l.
Proof.
  intros F. destruct (rev l) as [|b m] eqn:E; [reflexivity|].
  assert (I : In b l) by (apply in_rev; rewrite E; now left).
  rewrite forallb_forall in F. specialize (F b I).
  unfold notEOL in F. apply andb_prop in F. destruct F as [_ F].
  destruct b; try reflexivity. discriminate F.
Qed.

(** A line that fills the buffer ends the scan. *)
Lemma scanFrom_too_long long rest acc n :
  forallb notLF long = true ->
  (n < MaxScanTokenSize)%N ->
  (MaxScanTokenSize <= n + N.of_nat (length long))%N ->
  scanFrom (long ++ rest) acc n = [].
Proof.
  revert acc n. induction long as [|b long IH]; intros acc n F B L.
  - cbn [length] in L. lia.
  - cbn [forallb] in F. apply andb_prop in F. destruct F as [Fb F].
    cbn [app scanFrom]. unfold notLF in Fb. apply negb_true_iff in Fb.
    rewrite Fb. destruct (MaxScanTokenSize <=? n + 1)%N eqn:E; [reflexivity|].
    apply N.leb_gt in E. apply IH; [exact F|exact E|].
    cbn [length] in L. lia.
Qed.

End ScannerMore.

Section NewFromURLMore.
Import youtubedl.
Context {U : Unicode} {J : JSON} {P : path.Paths} {O : OS}.

(** X8: when the first line of the tool's diagnostics is "ERROR: " and a
    message, ended by a line feed or by a carriage return and a line feed,
    [NewFromURL] returns the message as an [Error], whatever follows in
    the stream, whatever the exit status and whatever the tool left in its
    directory. *)
Theorem NewFromURL_first_line (url msg : string) (crlf : bool)
        (rest : list byte) :
  let p := Exec (command TempDir url) in
  stderrPipeErr p = None -> stdinPipeErr p = None -> startErr p = None ->
  forallb notEOL (list_byte_of_string msg) = true ->
  (N.of_nat (String.length msg) + 8 < bufio.MaxScanTokenSize)%N ->
  stderrData p
  = (list_byte_of_string ("ERROR: " ++ msg)
     ++ (if crlf then [x0d; x0a] else [x0a]) ++ rest)%list ->
  NewFromURL url = Err (Error msg).
Proof.
  intros p E1 E2 E3 F B S.
  assert (Fl : forallb notEOL (list_byte_of_string ("ERROR: " ++ msg)) = true)
    by (rewrite list_byte_app, forallb_app, F; reflexivity).
  set (line := (list_byte_of_string ("ERROR: " ++ msg)
                ++ (if crlf then [x0d] else []))%list).
  assert (Sl : stderrData p = (line ++ x0a :: rest)%list).
  { rewrite S. unfold line. rewrite <- app_assoc. now destruct crlf. }
  assert (T : bufio.scanLines (stderrData p)
              = list_byte_of_string ("ERROR: " ++ msg) :: bufio.scanLines rest).
  { rewrite Sl, scanLines_line.
    - f_equal. unfold line. destruct crlf.
      + rewrite rev_app_distr. cbn [rev app bufio.dropCR]. apply rev_involutive.
      + rewrite app_nil_r, dropCR_notEOL by exact Fl. apply rev_involutive.
    - unfold line. intros I. apply in_app_or in I. destruct I as [I|I].
      + now apply (notLF_not_In _ (notEOL_notLF _ Fl)).
      + destruct crlf; [destruct I as [I|[]]; discriminate I|destruct I].
    - unfold line. rewrite length_app, list_byte_length.
      change (String.length ("ERROR: " ++ msg)) with (7 + String.length msg).
      unfold bufio.MaxScanTokenSize in *. destruct crlf; cbn [length]; lia. }
  unfold NewFromURL. fold p. rewrite E1, E2, E3, T.
  cbn [scanStderr]. unfold bufio.Text.
  rewrite string_of_list_byte_of_string.
  assert (HP : HasPrefix ("ERROR: " ++ msg) errorPrefix = true)
    by (unfold HasPrefix, errorPrefix; cbn; apply prefix_empty).
  rewrite HP. reflexivity.
Qed.

(** X9: a first diagnostic line of 65536 bytes or more ends the scan at
    once: no line of the stream is examined, error lines behind it
    included, and the result is that of waiting for the tool and reading
    its directory. *)
Theorem NewFromURL_long_line (url : string) (long rest : list byte) :
  let p := Exec (command TempDir url) in
  stderrPipeErr p = None -> stdinPipeErr p = None -> startErr p = None ->
  forallb notLF long = true ->
  (bufio.MaxScanTokenSize <= N.of_nat (length long))%N ->
  stderrData p = (long ++ rest)%list ->
  NewFromURL url = match waitErr p with
                   | Some e => Err e
                   | None => NewFromPath (filesAfter p) TempDir
                   end.
Proof.
  intros p E1 E2 E3 F L S.
  unfold NewFromURL. fold p. rewrite E1, E2, E3, S.
  unfold bufio.scanLines. rewrite scanFrom_too_long; try assumption; reflexivity.
Qed.

End NewFromURLMore.

Lemma NewFromURL_first_line_witness :
  youtubedl.NewFromURL (U := sampleUnicode) (J := constJSON sampleDecoded)
    (P := samplePaths)
    (O := osWith (list_byte_of_string "ERROR: no such video"
                  ++ [x0d; x0a] ++ list_byte_of_string "ERROR: later"))
    "https://example.com/v"
  = Err (Error "no such video").
Proof.
  apply (@NewFromURL_first_line sampleUnicode (constJSON sampleDecoded) samplePaths
           (osWith (list_byte_of_string "ERROR: no such video"
                    ++ [x0d; x0a] ++ list_byte_of_string "ERROR: later"))
           "https://example.com/v" "no such video" true
           (list_byte_of_string "ERROR: later"));
    reflexivity.
Defined.

Lemma NewFromURL_long_line_witness :
  youtubedl.NewFromURL (U := sampleUnicode) (J := constJSON sampleDecoded)
    (P := samplePaths)
    (O := osWith (repeat x2e (N.to_nat 65536)
                  ++ list_byte_of_string (String "010" "ERROR: unseen")))
    "https://example.com/v"
  = youtubedl.NewFromPath (U := sampleUnicode) (J := constJSON sampleDecoded)
      (P := samplePaths) twoJSONFS sampleDir.
Proof.
  apply (@NewFromURL_long_line sampleUnicode (constJSON sampleDecoded) samplePaths
           (osWith (repeat x2e (N.to_nat 65536)
                    ++ list_byte_of_string (String "010" "ERROR: unseen")))
           "https://example.com/v"
           (repeat x2e (N.to_nat 65536))
           (list_byte_of_string (String "010" "ERROR: unseen")));
    try reflexivity.
Defined.

(** ** Download *)

Section DownloadMore.
Import youtubedl.
Context {U : Unicode} {J : JSON} {P : path.Paths}.

(** X10: the temporary directory that [Download] makes is removed by the
    goroutine that waits for the process, and by nothing else: the removal
    is set up exactly when [Download] returns a reader.  When writing the
    JSON file, making the pipe or starting the process fails, the directory
    has been made and is left behind; no other directory is ever removed. *)
Theorem Download_cleanup (w : DownloadRun) (i : Info) (filter tempPath : string) :
  tempDirResult w = Ok tempPath ->
  In (MkdirTemp tempPath) (snd (Download w i filter))
  /\ (In (WaitThenRemoveAll tempPath) (snd (Download w i filter))
      <-> exists out, fst (Download w i filter) = Ok out)
  /\ (forall dir, In (WaitThenRemoveAll dir) (snd (Download w i filter)) ->
                  dir = tempPath)
  /\ (forall e, fst (Download w i filter) = Err e ->
                forall dir, ~ In (WaitThenRemoveAll dir) (snd (Download w i filter))).
Proof.
  intros T. unfold Download. rewrite T.
  assert (failed : forall (e0 : error) (effects : list Effect),
             In (MkdirTemp tempPath) effects ->
             (forall dir, ~ In (WaitThenRemoveAll dir) effects) ->
             In (MkdirTemp tempPath) (snd (Err (A := Reader) e0, effects))
             /\ (In (WaitThenRemoveAll tempPath) (snd (Err (A := Reader) e0, effects))
                 <-> exists out, fst (Err (A := Reader) e0, effects) = Ok out)
             /\ (forall dir, In (WaitThenRemoveAll dir)
                                (snd (Err (A := Reader) e0, effects)) ->
                             dir = tempPath)
             /\ (forall e, fst (Err (A := Reader) e0, effects) = Err e ->
                           forall dir, ~ In (WaitThenRemoveAll dir)
                                            (snd (Err (A := Reader) e0, effects)))).
  { intros e0 effects M N. cbn [fst snd]. split; [exact M|]. split; [|split].
    - split; [intros H; destruct (N _ H)|intros [out H]; discriminate H].
    - intros dir H. destruct (N _ H).
    - intros _ _. exact N. }
  destruct (writeFileErr w) as [e0|].
  { apply failed; [now left|]. intros dir [H|[]]. discriminate H. }
  destruct (stdoutPipeErr w) as [e0|].
  { apply failed; [now left|]. intros dir [H|[H|[]]]; discriminate H. }
  destruct (downloadStartErr w) as [e0|].
  { apply failed; [now left|]. intros dir [H|[H|[]]]; discriminate H. }
  cbn [fst snd app]. split; [now left|]. split; [|split].
  - split; [intros _; now eexists|intros _; right; right; right; now left].
  - intros dir [H|[H|[H|[H|[]]]]]; try discriminate H. now inversion H.
  - intros e H. discriminate H.
Qed.

(** X11: [Download] writes the raw JSON of the [Info], byte for byte, to
    "info.json" in its directory and hands that file to the tool with
    --load-info, the filter being the single argument behind -f; and a
    directory holding that file is read back by [NewFromPath] as the very
    [Info] that [parseInfo] had returned. *)
Theorem Download_writes_raw (w : DownloadRun) (r : Reader) (i : Info)
        (filter tempPath : string) (out : Reader) :
  parseInfo r = Ok i ->
  tempDirResult w = Ok tempPath ->
  fst (Download w i filter) = Ok out ->
  tempPath <> "" -> path.Join tempPath "info.json" <> "" ->
  snd (Download w i filter)
  = [ MkdirTemp tempPath;
      WriteFile (path.Join tempPath "info.json") (rawJSON i) 420;
      StartCmd {| Path := "youtube-dl";
                  Args := [ "youtube-dl"; "--no-call-home"; "--no-cache-dir";
                            "--load-info"; path.Join tempPath "info.json";
                            "-f"; filter; "-o"; "-" ];
                  Dir := tempPath;
                  StdinData := [] |};
      WaitThenRemoveAll tempPath ]
  /\ NewFromPath (writtenFS tempPath (rawJSON i)) tempPath = Ok i.
Proof.
  intros Pi T D NE NJ. split.
  - revert D. unfold Download. rewrite T.
    destruct (writeFileErr w); [discriminate|].
    destruct (stdoutPipeErr w); [discriminate|].
    destruct (downloadStartErr w); [discriminate|]. reflexivity.
  - destruct (parseInfo_Ok r Pi) as [d [Er [_ [_ Raw]]]].
    assert (Pb : parseInfo (bytesReader (rawJSON i)) = Ok i).
    { rewrite <- Pi, Raw. unfold parseInfo, ReadAll. cbn. now rewrite Er. }
    apply String.eqb_neq in NE, NJ.
    assert (R : ReadDir (writtenFS tempPath (rawJSON i)) tempPath = Ok ["info.json"]).
    { unfold ReadDir, writtenFS. cbn. now rewrite NE, String.eqb_refl. }
    rewrite (NewFromPath_unfold _ _ R).
    change (lastWith isJSONName ["info.json"]) with (Some "info.json").
    change (lastWith isImageName ["info.json"]) with (@None string).
    unfold Open, writtenFS. cbn [files assoc]. rewrite NJ, String.eqb_refl.
    cbn [bind]. now rewrite Pb.
Qed.

End DownloadMore.

Lemma Download_cleanup_witness :
  In (youtubedl.MkdirTemp sampleDir)
     (snd (youtubedl.Download (P := samplePaths)
             (sampleRun (Some (SysError "executable file not found")))
             sampleParsed "bestaudio"))
  /\ ~ In (youtubedl.WaitThenRemoveAll sampleDir)
          (snd (youtubedl.Download (P := samplePaths)
                  (sampleRun (Some (SysError "executable file not found")))
                  sampleParsed "bestaudio")).
Proof.
  destruct (@Download_cleanup samplePaths
              (sampleRun (Some (SysError "executable file not found")))
              sampleParsed "bestaudio" sampleDir eq_refl)
    as [M [_ [_ N]]].
  split; [exact M|]. apply (N (SysError "executable file not found")). reflexivity.
Defined.

Lemma Download_writes_raw_witness :
  youtubedl.NewFromPath (U := sampleUnicode) (J := constJSON sampleDecoded)
    (P := samplePaths)
    (writtenFS (P := samplePaths) sampleDir (youtubedl.rawJSON sampleParsed))
    sampleDir
  = Ok sampleParsed.
Proof.
  apply (@Download_writes_raw sampleUnicode (constJSON sampleDecoded) samplePaths
           (sampleRun None) (youtubedl.bytesReader sampleRaw) sampleParsed
           "bestaudio" sampleDir (youtubedl.bytesReader [x1a; x45])).
  - reflexivity.
  - reflexivity.
  - reflexivity.
  - discriminate.
  - discriminate.
Defined.

(** ** FormatByNormBR *)

Section SortInterface.
Import youtubedl.

Lemma store_length a i x : length (store a i x) = length a.
Proof.
  revert i. induction a as [|y a IH]; intros [|i]; cbn; try reflexivity.
  now rewrite IH.
Qed.

Lemma nth_error_store a i x k :
  i < length a ->
  nth_error (store a i x) k = if Nat.eqb k i then Some x else nth_error a k.
Proof.
  revert i k. induction a as [|y a IH]; intros i k L; [cbn in L; lia|].
  destruct i as [|i], k as [|k]; cbn; try reflexivity.
  apply IH. cbn in L. lia.
Qed.

Lemma nth_error_eq (A : Type) (l l' : list A) :
  (forall k, nth_error l k = nth_error l' k) -> l = l'.
Proof.
  revert l'. induction l as [|x l IH]; intros [|y l'] H.
  - reflexivity.
  - specialize (H 0). discriminate H.
  - specialize (H 0). discriminate H.
  - pose proof (H 0) as H0. inversion H0. subst y. f_equal.
    apply IH. intros k. apply (H (S k)).
Qed.

Lemma index_in_range a i :
  i < length a -> exists x, nth_error a i = Some x /\ index a i = Ok x.
Proof.
  intros L. unfold index. destruct (nth_error a i) as [x|] eqn:E.
  - now exists x.
  - apply nth_error_None in E. lia.
Qed.

Lemma index_out_of_range a i : length a <= i -> index a i = Panic.
Proof.
  intros L. unfold index. now rewrite (proj2 (nth_error_None a i) L).
Qed.

Lemma transpose_involutive i j k : transpose i j (transpose i j k) = k.
Proof.
  unfold transpose.
  destruct (Nat.eqb_spec k i) as [Ei|Ni].
  - destruct (Nat.eqb_spec j i) as [Ej|Nj]; [congruence|].
    now rewrite Nat.eqb_refl.
  - destruct (Nat.eqb_spec k j) as [Ej|Nj].
    + now rewrite Nat.eqb_refl.
    + destruct (Nat.eqb_spec k i); [contradiction|].
      now destruct (Nat.eqb_spec k j).
Qed.

Lemma Swap_in_range a i j :
  i < length a -> j < length a ->
  exists a', Swap a i j = Ok a' /\ length a' = length a
             /\ forall k, nth_error a' k = nth_error a (transpose i j k).
Proof.
  intros Li Lj.
  destruct (index_in_range a Li) as [x [Nx Ix]].
  destruct (index_in_range a Lj) as [y [Ny Iy]].
  unfold Swap. rewrite Ix, Iy. cbn [bind]. eexists. split; [reflexivity|].
  split; [now rewrite !store_length|].
  intros k. rewrite nth_error_store by now rewrite store_length.
  rewrite nth_error_store by exact Li. unfold transpose.
  destruct (Nat.eqb_spec k j) as [Ej|Nj], (Nat.eqb_spec k i) as [Ei|Ni];
    congruence.
Qed.

(** X12: [Swap] with both indices in range exchanges the two elements and
    leaves every other element and the length as they were, so that
    swapping again gives the slice back; with an index out of range it
    panics. *)
Theorem Swap_exchanges (a : FormatByNormBR) (i j : nat) :
  (i < Len a -> j < Len a ->
   exists a', Swap a i j = Ok a' /\ Len a' = Len a
              /\ (forall k, nth_error a' k = nth_error a (transpose i j k))
              /\ Swap a' i j = Ok a)
  /\ (Len a <= i \/ Len a <= j -> Swap a i j = Panic).
Proof.
  unfold Len. split.
  - intros Li Lj.
    destruct (Swap_in_range a Li Lj) as [a' [S [L N]]].
    exists a'. repeat split; try assumption.
    rewrite <- L in Li, Lj.
    destruct (Swap_in_range a' Li Lj) as [a'' [S' [L' N']]].
    rewrite S'. f_equal. apply nth_error_eq. intros k.
    rewrite N', N. f_equal. apply transpose_involutive.
  - intros [L|L]; unfold Swap.
    + now rewrite index_out_of_range.
    + unfold index at 1. destruct (nth_error a i); cbn [bind]; [|reflexivity].
      now rewrite index_out_of_range.
Qed.

End SortInterface.

Lemma Swap_exchanges_witness :
  (0 < youtubedl.Len threeFormats /\ 2 < youtubedl.Len threeFormats)
  /\ exists a', youtubedl.Swap threeFormats 0 2 = Ok a'
                /\ youtubedl.Len a' = youtubedl.Len threeFormats
                /\ (forall k, nth_error a' k = nth_error threeFormats (transpose 0 2 k))
                /\ youtubedl.Swap a' 0 2 = Ok threeFormats.
Proof.
  split; [split; cbn; lia|].
  apply (proj1 (@Swap_exchanges threeFormats 0 2)); cbn; lia.
Defined.

(** ** stringsContains *)

(** X14: [stringsContains] is true exactly for the strings that are in the
    list. *)
Theorem stringsContains_In (strings : list string) (s : string) :
  ydls.stringsContains strings s = true <-> In s strings.
Proof.
  induction strings as [|ss strings IH]; cbn [ydls.stringsContains In].
  - split; [discriminate|contradiction].
  - destruct (String.eqb_spec ss s) as [->|NE].
    + split; auto.
    + rewrite IH. split; [now right|]. intros [E|I]; [contradiction|exact I].
Qed.

(** ** RSSFromYDLSInfo and nil formats *)

Section FeedMore.
Import ydls.
Variable URL : Type.
Variable env : Env URL.


End FeedMore.

(** ** The order of FormatByNormBR *)

Section FloatOrder.
Import SpecFloat.

Ltac compare_cases :=
  repeat match goal with
         | H : context [Z.compare ?a ?b] |- _ => destruct (Z.compare_spec a b)
         | |- context [Z.compare ?a ?b] => destruct (Z.compare_spec a b)
         | H : context [Pos.compare_cont Eq ?a ?b] |- _ =>
             change (Pos.compare_cont Eq a b) with (Pos.compare a b) in H;
             destruct (Pos.compare_spec a b)
         | |- context [Pos.compare_cont Eq ?a ?b] =>
             change (Pos.compare_cont Eq a b) with (Pos.compare a b);
             destruct (Pos.compare_spec a b)
         end.

Lemma SFltb_irrefl x : SFltb x x = false.
Proof.
  unfold SFltb, SFcompare. destruct x as [s|s| |s m e]; try destruct s;
    try reflexivity; rewrite Z.compare_refl;
    change (Pos.compare_cont Eq m m) with (Pos.compare m m);
    now rewrite Pos.compare_refl.
Qed.

Lemma SFltb_asym x y : SFltb x y = true -> SFltb y x = false.
Proof.
  unfold SFltb, SFcompare.
  destruct x as [sx|sx| |sx mx ex], y as [sy|sy| |sy my ey];
    try destruct sx; try destruct sy; cbn; try discriminate; try reflexivity;
    intros H; compare_cases; cbn in *; try discriminate; try reflexivity;
    subst; lia.
Qed.

Lemma SFltb_trans x y z : SFltb x y = true -> SFltb y z = true -> SFltb x z = true.
Proof.
  unfold SFltb, SFcompare.
  destruct x as [sx|sx| |sx mx ex], y as [sy|sy| |sy my ey],
           z as [sz|sz| |sz mz ez];
    try destruct sx; try destruct sy; try destruct sz;
    cbn; try discriminate; try reflexivity;
    intros H1 H2; compare_cases; cbn in *; try discriminate; try reflexivity;
    subst; lia.
Qed.

End FloatOrder.

Section LessOrder.
Import youtubedl.

Lemma ltb_irrefl x : PrimFloat.ltb x x = false.
Proof. rewrite FloatAxioms.ltb_spec. apply SFltb_irrefl. Qed.

Lemma ltb_asym x y : PrimFloat.ltb x y = true -> PrimFloat.ltb y x = false.
Proof. rewrite !FloatAxioms.ltb_spec. apply SFltb_asym. Qed.

Lemma ltb_trans x y z :
  PrimFloat.ltb x y = true -> PrimFloat.ltb y z = true -> PrimFloat.ltb x z = true.
Proof. rewrite !FloatAxioms.ltb_spec. apply SFltb_trans. Qed.

Lemma Less_true a i j :
  Less a i j = Ok true ->
  exists f g, nth_error a i = Some (Some f) /\ nth_error a j = Some (Some g)
              /\ PrimFloat.ltb (NormBR g) (NormBR f) = true.
Proof.
  unfold Less, index.
  destruct (nth_error a i) as [[f|]|]; cbn [bind]; try discriminate;
    destruct (nth_error a j) as [[g|]|]; cbn [bind]; try discriminate.
  intros H. inversion H. now exists f, g.
Qed.

Lemma Less_value a i j f g :
  nth_error a i = Some (Some f) -> nth_error a j = Some (Some g) ->
  Less a i j = Ok (PrimFloat.ltb (NormBR g) (NormBR f)).
Proof. intros Ei Ej. unfold Less, index. now rewrite Ei, Ej. Qed.

(** X13: [Less] orders by descending normalized bitrate and is a strict
    order, as sort.Sort requires: no element is less than itself, two
    elements are never less than each other, and less is transitive.  A
    normalized bitrate that is not a number is in no relation with any. *)
Theorem Less_strict_order (a : FormatByNormBR) (i j k : nat) :
  Less a i i <> Ok true
  /\ (Less a i j = Ok true -> Less a j i = Ok false)
  /\ (Less a i j = Ok true -> Less a j k = Ok true -> Less a i k = Ok true)
  /\ (forall f g, nth_error a i = Some (Some f) -> nth_error a j = Some (Some g) ->
                  Less a i j = Ok (PrimFloat.ltb (NormBR g) (NormBR f)))
  /\ (forall f g, nth_error a i = Some (Some f) -> nth_error a j = Some (Some g) ->
                  PrimFloat.eqb (NormBR f) (NormBR f) = false ->
                  Less a i j = Ok false /\ Less a j i = Ok false).
Proof.
  split; [|split; [|split; [|split]]].
  - intros H. destruct (@Less_true a i i H) as [f [g [Ef [Eg L]]]].
    rewrite Ef in Eg. inversion Eg. subst g. rewrite ltb_irrefl in L. discriminate L.
  - intros H. destruct (@Less_true a i j H) as [f [g [Ef [Eg L]]]].
    rewrite (@Less_value a j i g f Eg Ef). now rewrite (@ltb_asym _ _ L).
  - intros H1 H2.
    destruct (@Less_true a i j H1) as [f [g [Ef [Eg L1]]]].
    destruct (@Less_true a j k H2) as [g' [h [Eg' [Eh L2]]]].
    rewrite Eg in Eg'. inversion Eg'. subst g'.
    rewrite (@Less_value a i k f h Ef Eh). now rewrite (@ltb_trans _ _ _ L2 L1).
  - intros f g Ef Eg. now apply Less_value.
  - intros f g Ef Eg NaN.
    rewrite (@Less_value a i j f g Ef Eg), (@Less_value a j i g f Eg Ef).
    rewrite FloatAxioms.eqb_spec in NaN. rewrite !FloatAxioms.ltb_spec.
    unfold SpecFloat.SFeqb, SpecFloat.SFltb in *.
    destruct (FloatOps.Prim2SF (NormBR f)) as [s|s| |s m e].
    + discriminate NaN.
    + destruct s; discriminate NaN.
    + split; unfold SpecFloat.SFcompare; now destruct (FloatOps.Prim2SF (NormBR g)).
    + cbn in NaN. rewrite Z.compare_refl in NaN.
      change (Pos.compare_cont Eq m m) with (Pos.compare m m) in NaN.
      rewrite Pos.compare_refl in NaN. destruct s; discriminate NaN.
Qed.

End LessOrder.

Lemma Less_strict_order_witness :
  youtubedl.Less threeFormats 2 0 = Ok true
  /\ youtubedl.Less threeFormats 0 2 = Ok false.
Proof.
  split; [reflexivity|].
  apply (proj1 (proj2 (@Less_strict_order threeFormats 2 0 0))). reflexivity.
Defined.
